(** * 1k-validators-be: the chain query layer and the main scorekeeper job

    A shallow embedding of
    [packages/common/src/chaindata/queries/ValidatorPref.ts] (the validator
    preference queries) and of [mainScorekeeperJob] (the era-round
    scheduler), followed by the properties the specification states about
    them.

    Conventions.
    - An [async] function is a computation that appends log lines and then
      either returns a value or throws ([Promise], for the query layer), or
      a computation that appends the calls it makes to a trace ([Job], for
      the scheduler).
    - Objects handed out by the chain API are records of the observations
      the code makes of them; every method call the code performs inside a
      [try] block is an [Outcome], so that it may throw.
    - JavaScript integers are [Z].  Era indices, commissions and group
      counts stay far below 2^53, where binary64 arithmetic on integers is
      exact. *)

From Stdlib Require Import ZArith List String Bool Lia DecimalString.
From Stdlib Require Import Floats Uint63.
Import ListNotations.
Local Open Scope string_scope.
Local Open Scope Z_scope.

(** ** JavaScript values *)

Module Js.

(** What a thrown value looks like to the handlers of this code base:
    [`${e}`] and [JSON.stringify(e)]. *)
Record Exn : Type := mkExn {
  exn_toString : string;
  exn_json : string
}.

(** The [TypeError] raised by the runtime when a property of [undefined]
    or [null] is read.  An [Error] has no enumerable property, so it
    serialises to the empty object. *)
Definition TypeError (msg : string) : Exn :=
  {| exn_toString := "TypeError: " ++ msg; exn_json := "{}" |}.

Definition JSON_stringify (e : Exn) : string := exn_json e.

(** A call either returns or throws. *)
Inductive Outcome (A : Type) : Type :=
| Returns (a : A)
| Throws (e : Exn).
Arguments Returns {A} a.
Arguments Throws {A} e.

(** Truthiness of a [string | null]: [null] and the empty string are
    falsy. *)
Definition truthy_string (s : string) : bool := negb (String.eqb s "").

Definition truthy (o : option string) : bool :=
  match o with
  | Some s => truthy_string s
  | None => false
  end.

(** [`${v}`] for a [string | null]. *)
Definition template (o : option string) : string :=
  match o with
  | Some s => s
  | None => "null"
  end.

(** A JavaScript number as far as the progress computation needs it:
    an integer, or the result of dividing a positive number by zero. *)
Inductive Number : Type :=
| Finite (z : Z)
| Infinity.

(** [Math.floor((p / t) * 100)] for a positive integer [p] and a
    non-negative integer [t].  For [t > 0] the exact value is
    [floor (100 p / t)]; [binary64_agrees] below checks the binary64
    computation against it.  For [t = 0], [p / 0] is [Infinity], and so
    are its product with 100 and the floor of that. *)
Definition floor_ratio_percent (p t : Z) : Number :=
  if t =? 0 then Infinity else Finite (p * 100 / t).

(** [(1 / t) * 100] as the machine computes it. *)
Definition binary64_percent (t : Z) : float :=
  PrimFloat.mul
    (PrimFloat.div (PrimFloat.of_uint63 1) (PrimFloat.of_uint63 (Uint63.of_Z t)))
    (PrimFloat.of_uint63 100).

(** [Math.floor(x) = q], stated without a floor on floats:
    [q <= x < q + 1]. *)
Definition binary64_floor_is (x : float) (q : Z) : bool :=
  PrimFloat.leb (PrimFloat.of_uint63 (Uint63.of_Z q)) x
  && PrimFloat.ltb x (PrimFloat.of_uint63 (Uint63.of_Z (q + 1))).

(** The machine computation and [floor_ratio_percent 1] agree on [count]
    consecutive group counts from [t] on. *)
Fixpoint binary64_agrees (t : Z) (count : nat) : bool :=
  match count with
  | O => true
  | S count' =>
      match floor_ratio_percent 1 t with
      | Finite q => binary64_floor_is (binary64_percent t) q
      | Infinity => PrimFloat.eqb (binary64_percent t) PrimFloat.infinity
      end
      && binary64_agrees (t + 1) count'
  end.

(** A floating-point quotient, kept symbolic. *)
Inductive Quotient : Type :=
| parseFloat_div (s : string) (denom : Z)   (* parseFloat(s) / denom *)
| number_div (v : Z) (denom : Z).           (* v / denom *)

End Js.
Import Js.

(** ** Logging *)

Inductive Level : Type := Info | Warn | Error.

Inductive Label : Type := chaindataLabel | scorekeeperLabel.

Record LogLine : Type := mkLog {
  log_level : Level;
  log_message : string;
  log_label : Label
}.

(** ** Asynchronous computations of the query layer *)

Definition Promise (A : Type) : Type := (list LogLine * Outcome A)%type.

Definition logs {A} (p : Promise A) : list LogLine := fst p.
Definition outcome {A} (p : Promise A) : Outcome A := snd p.

Definition resolve {A} (a : A) : Promise A := ([], Returns a).

Definition throw {A} (e : Exn) : Promise A := ([], Throws e).

(** [await]: the value of a call, or its exception rethrown here. *)
Definition await {A} (o : Outcome A) : Promise A := ([], o).

Definition bind {A B} (m : Promise A) (k : A -> Promise B) : Promise B :=
  match m with
  | (l, Returns a) => let (l', r) := k a in ((l ++ l')%list, r)
  | (l, Throws e) => (l, Throws e)
  end.

Definition try_catch {A} (body : Promise A) (handler : Exn -> Promise A)
  : Promise A :=
  match body with
  | (l, Returns a) => (l, Returns a)
  | (l, Throws e) => let (l', r) := handler e in ((l ++ l')%list, r)
  end.

Definition logger_error (msg : string) (label : Label) : Promise unit :=
  ([mkLog Error msg label], Returns tt).

Declare Scope promise_scope.
Delimit Scope promise_scope with promise.
Notation "x <- m ;; k" := (bind m (fun x => k))
  (at level 61, m at next level, right associativity) : promise_scope.
Notation "m ;; k" := (bind m (fun _ => k))
  (at level 61, right associativity) : promise_scope.

(** [xs.map(f)] where [f] may throw: the elements are mapped from left to
    right and the first exception ends the traversal. *)
Fixpoint array_map {A B} (f : A -> Promise B) (xs : list A)
  : Promise (list B) :=
  match xs with
  | [] => resolve []
  | x :: xs' =>
      bind (f x) (fun y => bind (array_map f xs') (fun ys => resolve (y :: ys)))
  end.

(** ** The chain API, as the queries observe it *)

(** [Compact<Perbill>]: the commission of a validator. *)
Record Compact : Type := mkCompact {
  toNumber : Outcome Z
}.

Record BoolCodec : Type := mkBoolCodec {
  bool_toString : Outcome string
}.

(** [staking.validators(v)] and [staking.erasValidatorPrefs(era, v)]. *)
Record ValidatorPrefs : Type := mkValidatorPrefs {
  commission : option Compact;
  blocked : option BoolCodec
}.

(** [staking.bonded(stash)]: an [Option<AccountId>]. *)
Record OptionAccountId : Type := mkOptionAccountId {
  bonded_isNone : bool;
  bonded_toString : Outcome string
}.

(** [ledger.toJSON()]; [null] for an empty option. *)
Record LedgerJson : Type := mkLedgerJson {
  active : Z
}.

(** [staking.ledger(controller)]: an [Option<StakingLedger>]. *)
Record OptionLedger : Type := mkOptionLedger {
  ledger_isNone : bool;
  ledger_toJSON : Outcome (option LedgerJson)
}.

(** [rewardDestination.toJSON()]: [null], a variant name such as
    ["Staked"], or an object that may carry an [account]. *)
Inductive PayeeJson : Type :=
| PayeeNull
| PayeeVariant (variant : string)
| PayeeObject (account : option string).

(** [staking.payee(stash)]. *)
Record RewardDestination : Type := mkRewardDestination {
  payee_toJSON : Outcome PayeeJson;
  payee_toString : Outcome string
}.

Record AccountId : Type := mkAccountId {
  account_toString : Outcome string
}.

Record SessionKeys : Type := mkSessionKeys {
  toHex : Outcome string
}.

(** [nextKeysRaw.toJSON()]: [null], a primitive (with its truthiness), or
    an object with its entries. *)
Inductive NextKeysJson : Type :=
| NextKeysNull
| NextKeysPrimitive (is_truthy : bool)
| NextKeysObject (entries : list (string * string)).

(** [session.nextKeys(stash)]. *)
Record OptionKeys : Type := mkOptionKeys {
  nextKeys_toJSON : Outcome NextKeysJson
}.

Record BalanceCodec : Type := mkBalanceCodec {
  free_toString : Outcome string
}.

Record AccountData : Type := mkAccountData {
  free : option BalanceCodec
}.

(** [system.account(address)]. *)
Record AccountInfo : Type := mkAccountInfo {
  data : option AccountData
}.

(** An element of [eraStakers.others]. *)
Record IndividualExposure : Type := mkIndividualExposure {
  who_toString : Outcome string;
  value_toString : Outcome string
}.

(** An element of [eraStakers.others.toJSON()]: [who] may be missing. *)
Record IndividualExposureJson : Type := mkIndividualExposureJson {
  who_json : option string;
  value_json : Z
}.

(** [staking.erasStakers(era, validator)]. *)
Record ExposureCodec : Type := mkExposureCodec {
  total_toString : Outcome string;
  own_toString : Outcome string;
  others : list IndividualExposure;
  others_toJSON : Outcome (list IndividualExposureJson)
}.

(** The storage queries under [api.query].  Each call may reject, and may
    resolve to [undefined] ([None]). *)
Record Query : Type := mkQuery {
  staking_validators : string -> Outcome (option ValidatorPrefs);
  staking_erasValidatorPrefs : Z -> string -> Outcome (option ValidatorPrefs);
  staking_bonded : string -> Outcome (option OptionAccountId);
  staking_ledger : string -> Outcome (option OptionLedger);
  staking_payee : string -> Outcome (option RewardDestination);
  session_queuedKeys : Outcome (option (list (AccountId * SessionKeys)));
  session_nextKeys : string -> Outcome (option OptionKeys);
  system_account : string -> Outcome (option AccountInfo);
  staking_erasStakers : Z -> string -> Outcome (option ExposureCodec)
}.

(** An [ApiPromise], or the historic [apiAt] (typed [any] in the source,
    so that its [query] may be missing). *)
Record Api : Type := mkApi {
  query : option Query
}.

(** [[number, string | null]]: a value and the reason why it is only a
    default. *)
Definition NumberResult : Type := (Z * option string)%type.

(** The [ChainData] handle.  [getActiveEraIndex] belongs to the same
    class; the scheduler calls it. *)
Record ChainData : Type := mkChainData {
  checkApiConnection : Outcome unit;
  api : option Api;
  getDenom : Outcome Z;
  getActiveEraIndex : NumberResult
}.

(** [api.query]: reading [staking], [session] or [system] from a missing
    [query] raises a [TypeError]. *)
Definition api_query (a : Api) : Outcome Query :=
  match query a with
  | Some q => Returns q
  | None => Throws (TypeError "Cannot read properties of undefined")
  end.

(** [await chaindata?.api?.query.<storage>(...)] and
    [await chaindata.api?.query.<storage>(...)]: [undefined] without an
    [api]. *)
Definition chaindata_api_query {A} (chaindata : ChainData)
    (call : Query -> Outcome (option A)) : Promise (option A) :=
  match api chaindata with
  | None => resolve None
  | Some a =>
      bind (await (api_query a)) (fun q => await (call q))
  end.

(** [await apiAt?.query?.staking.<storage>(...)]: [undefined] without
    [apiAt] or without its [query]. *)
Definition apiAt_optional_query {A} (apiAt : option Api)
    (call : Query -> Outcome (option A)) : Promise (option A) :=
  match apiAt with
  | None => resolve None
  | Some a =>
      match query a with
      | None => resolve None
      | Some q => await (call q)
      end
  end.

(** [await apiAt.query.staking.<storage>(...)]: a [TypeError] without
    [apiAt] or without its [query]. *)
Definition apiAt_query {A} (apiAt : option Api)
    (call : Query -> Outcome (option A)) : Promise (option A) :=
  match apiAt with
  | None => throw (TypeError "Cannot read properties of undefined")
  | Some a =>
      bind (await (api_query a)) (fun q => await (call q))
  end.

(** [o.m()] where [o] may be [undefined]: a [TypeError] then. *)
Definition method {A B} (o : option A) (m : A -> Outcome B) : Promise B :=
  match o with
  | Some a => await (m a)
  | None => throw (TypeError "Cannot read properties of undefined")
  end.

(** [o?.m()]: [undefined] when [o] is. *)
Definition optional_method {A B} (o : option A) (m : A -> Outcome B)
  : Promise (option B) :=
  match o with
  | Some a => bind (await (m a)) (fun b => resolve (Some b))
  | None => resolve None
  end.

(** ** The exported interfaces of ValidatorPref.ts *)

(** [X | null | undefined]. *)
Inductive Nullable (A : Type) : Type :=
| Value (a : A)
| Null
| Undefined.
Arguments Value {A} a.
Arguments Null {A}.
Arguments Undefined {A}.

Module QueuedKey.
Record t : Type := mk { address : string; keys : string }.
End QueuedKey.

Module NextKeys.
Record t : Type := mk { keys : list (string * string) }.
End NextKeys.

Module Balance.
Record t : Type := mk { free : option string }.
End Balance.

Module Stake.
Record t : Type := mk { address : string; bonded : Quotient }.
End Stake.

Module Exposure.
Record t : Type := mk { total : Quotient; own : Quotient; others : list Stake.t }.
End Exposure.

(** ** The queries *)

Section Queries.

Local Open Scope promise_scope.

Variable chaindata : ChainData.

Definition getCommission (validator : string) : Promise NumberResult :=
  try_catch
    (await (checkApiConnection chaindata) ;;
     prefs <- chaindata_api_query chaindata
                (fun q => staking_validators q validator) ;;
     match prefs with
     | None => resolve (0, Some "No preferences found.")
     | Some prefs =>
         n <- method (commission prefs) toNumber ;;
         resolve (n, None)
     end)
    (fun e =>
       logger_error ("Error getting commission: " ++ exn_toString e)
         chaindataLabel ;;
       resolve (0, Some (JSON_stringify e))).

Definition getCommissionInEra (apiAt : option Api) (eraIndex : Z)
    (validator : string) : Promise (Nullable Z) :=
  try_catch
    (await (checkApiConnection chaindata) ;;
     prefs <- apiAt_optional_query apiAt
                (fun q => staking_erasValidatorPrefs q eraIndex validator) ;;
     match prefs with
     | None => resolve Undefined
     | Some prefs =>
         n <- optional_method (commission prefs) toNumber ;;
         match n with
         | Some n => resolve (Value n)
         | None => resolve Undefined
         end
     end)
    (fun e =>
       logger_error ("Error getting commission in era: " ++ exn_toString e)
         chaindataLabel ;;
       resolve Null).

Definition getBlocked (validator : string) : Promise bool :=
  try_catch
    (await (checkApiConnection chaindata) ;;
     rawPrefs <- chaindata_api_query chaindata
                   (fun q => staking_validators q validator) ;;
     s <- match rawPrefs with
          | None => resolve None
          | Some rawPrefs => optional_method (blocked rawPrefs) bool_toString
          end ;;
     match s with
     | Some s => resolve (String.eqb s "true")
     | None => resolve false
     end)
    (fun e =>
       logger_error ("Error getting blocked: " ++ exn_toString e)
         chaindataLabel ;;
       resolve false).

Definition getBondedAmount (stash : string) : Promise NumberResult :=
  try_catch
    (await (checkApiConnection chaindata) ;;
     bondedAddress <- chaindata_api_query chaindata
                        (fun q => staking_bonded q stash) ;;
     match bondedAddress with
     | None => resolve (0, Some "Not bonded to any account.")
     | Some bondedAddress =>
         if bonded_isNone bondedAddress
         then resolve (0, Some "Not bonded to any account.")
         else
           controller <- await (bonded_toString bondedAddress) ;;
           ledger <- chaindata_api_query chaindata
                       (fun q => staking_ledger q controller) ;;
           match ledger with
           | None => resolve (0, Some "Ledger is empty.")
           | Some ledger =>
               if ledger_isNone ledger
               then resolve (0, Some "Ledger is empty.")
               else
                 json <- await (ledger_toJSON ledger) ;;
                 a <- method json (fun j => Returns (active j)) ;;
                 resolve (a, None)
           end
     end)
    (fun e =>
       logger_error ("Error getting bonded amount: " ++ exn_toString e)
         chaindataLabel ;;
       resolve (0, Some (JSON_stringify e))).

Definition getControllerFromStash (stash : string)
  : Promise (option string) :=
  try_catch
    (await (checkApiConnection chaindata) ;;
     controller <- chaindata_api_query chaindata
                     (fun q => staking_bonded q stash) ;;
     match controller with
     | None => resolve None
     | Some controller =>
         s <- await (bonded_toString controller) ;;
         resolve (Some s)
     end)
    (fun e =>
       logger_error
         ("Error getting controller from stash: " ++ exn_toString e)
         chaindataLabel ;;
       resolve None).

(** [json.account]: reading it from [null] raises a [TypeError]; a
    string has no such property. *)
Definition payee_account (json : PayeeJson) : Outcome (option string) :=
  match json with
  | PayeeNull => Throws (TypeError "Cannot read properties of null")
  | PayeeVariant _ => Returns None
  | PayeeObject a => Returns a
  end.

(** The common tail of [getRewardDestination] and
    [getRewardDestinationAt]. *)
Definition rewardDestination_account_or_string
    (rewardDestination : option RewardDestination)
  : Promise (option string) :=
  json <- method rewardDestination payee_toJSON ;;
  a <- await (payee_account json) ;;
  if truthy a
  then
    json' <- method rewardDestination payee_toJSON ;;
    await (payee_account json')
  else
    s <- method rewardDestination payee_toString ;;
    resolve (Some s).

Definition getRewardDestination (stash : string)
  : Promise (option string) :=
  try_catch
    (await (checkApiConnection chaindata) ;;
     rewardDestination <- chaindata_api_query chaindata
                            (fun q => staking_payee q stash) ;;
     rewardDestination_account_or_string rewardDestination)
    (fun e =>
       logger_error ("Error getting reward destination: " ++ exn_toString e)
         chaindataLabel ;;
       resolve None).

Definition getRewardDestinationAt (apiAt : option Api) (stash : string)
  : Promise (option string) :=
  try_catch
    (await (checkApiConnection chaindata) ;;
     rewardDestination <- apiAt_query apiAt
                            (fun q => staking_payee q stash) ;;
     rewardDestination_account_or_string rewardDestination)
    (fun e =>
       logger_error ("Error getting reward destination: " ++ exn_toString e)
         chaindataLabel ;;
       resolve None).

Definition getQueuedKeys : Promise (list QueuedKey.t) :=
  try_catch
    (await (checkApiConnection chaindata) ;;
     queuedKeys <- chaindata_api_query chaindata session_queuedKeys ;;
     match queuedKeys with
     | None => resolve []
     | Some queuedKeys =>
         keys <- array_map
                   (fun '(validator, keys) =>
                      a <- await (account_toString validator) ;;
                      h <- await (toHex keys) ;;
                      resolve (QueuedKey.mk a h))
                   queuedKeys ;;
         resolve keys
     end)
    (fun e =>
       logger_error ("Error getting queued keys: " ++ exn_toString e)
         chaindataLabel ;;
       resolve []).

(** The [try] block of [getNextKeys] either returns ([Some r]) or
    completes without returning ([None]), as its handler does; the
    function then returns [null]. *)
Definition getNextKeys (stash : string) : Promise (option NextKeys.t) :=
  returned <-
    try_catch
      (await (checkApiConnection chaindata) ;;
       nextKeysRaw <- chaindata_api_query chaindata
                        (fun q => session_nextKeys q stash) ;;
       match nextKeysRaw with
       | None => resolve (Some None)
       | Some nextKeysRaw =>
           nextKeysData <- await (nextKeys_toJSON nextKeysRaw) ;;
           match nextKeysData with
           | NextKeysObject entries =>
               if 0 <? Z.of_nat (List.length entries)
               then resolve (Some (Some (NextKeys.mk entries)))
               else resolve (Some None)
           | NextKeysNull | NextKeysPrimitive _ => resolve None
           end
       end)
      (fun e =>
         logger_error ("Error getting next keys: " ++ exn_toString e)
           chaindataLabel ;;
         resolve None) ;;
  match returned with
  | Some r => resolve r
  | None => resolve None
  end.

Definition getBalance (address : string) : Promise (option Balance.t) :=
  try_catch
    (await (checkApiConnection chaindata) ;;
     accountData <- chaindata_api_query chaindata
                      (fun q => system_account q address) ;;
     match accountData with
     | None => resolve None
     | Some accountData =>
         f <- match data accountData with
              | None => resolve None
              | Some d => optional_method (free d) free_toString
              end ;;
         resolve (Some (Balance.mk f))
     end)
    (fun e =>
       logger_error ("Error getting balance: " ++ exn_toString e)
         chaindataLabel ;;
       resolve None).

Definition getExposure (eraIndex : Z) (validator : string)
  : Promise (option Exposure.t) :=
  try_catch
    (await (checkApiConnection chaindata) ;;
     denom <- await (getDenom chaindata) ;;
     eraStakers <- chaindata_api_query chaindata
                     (fun q => staking_erasStakers q eraIndex validator) ;;
     match eraStakers with
     | Some eraStakers =>
         if negb (denom =? 0)
         then
           t <- await (total_toString eraStakers) ;;
           o <- await (own_toString eraStakers) ;;
           activeExposure <-
             array_map
               (fun stake =>
                  w <- await (who_toString stake) ;;
                  v <- await (value_toString stake) ;;
                  resolve (Stake.mk w (parseFloat_div v denom)))
               (others eraStakers) ;;
           resolve (Some (Exposure.mk (parseFloat_div t denom)
                            (parseFloat_div o denom) activeExposure))
         else resolve None
     | None => resolve None
     end)
    (fun e =>
       logger_error ("Error getting exposure: " ++ exn_toString e)
         chaindataLabel ;;
       resolve None).

Definition getExposureAt (apiAt : option Api) (eraIndex : Z)
    (validator : string) : Promise (option Exposure.t) :=
  try_catch
    (await (checkApiConnection chaindata) ;;
     denom <- await (getDenom chaindata) ;;
     eraStakers <- apiAt_query apiAt
                     (fun q => staking_erasStakers q eraIndex validator) ;;
     match eraStakers with
     | Some eraStakers =>
         if negb (denom =? 0)
         then
           t <- await (total_toString eraStakers) ;;
           o <- await (own_toString eraStakers) ;;
           json <- await (others_toJSON eraStakers) ;;
           activeExposure <-
             array_map
               (fun stake =>
                  w <- method (who_json stake) (fun s => Returns s) ;;
                  resolve (Stake.mk w (number_div (value_json stake) denom)))
               json ;;
           resolve (Some (Exposure.mk (parseFloat_div t denom)
                            (parseFloat_div o denom) activeExposure))
         else resolve None
     | None => resolve None
     end)
    (fun e =>
       logger_error ("Error getting exposure: " ++ exn_toString e)
         chaindataLabel ;;
       resolve None).

End Queries.

(** ** The scheduler: data *)

(** A nominator group.  The job reads its [bondedAddress] and hands the
    group on as it is. *)
Record Nominator : Type := mkNominator {
  bondedAddress : string
}.

(** An element of [allCurrentTargets]. *)
Module Target.
Record t : Type := mk {
  name : option string;
  stash : option string;
  identity : option string
}.
End Target.

(** Collaborators the job only passes on: the constraints, the bot and the
    API handler. *)
Inductive Handle : Type := handle (id : nat).

Module Config.
Record Global : Type := mkGlobal { networkPrefix : Z }.
Record Scorekeeper : Type := mkScorekeeper { nominating : bool }.
Record ConfigSchema : Type := mk {
  global : Global;
  scorekeeper : Scorekeeper
}.
End Config.

Record jobsMetadata : Type := mkJobsMetadata {
  constraints : Handle;
  ending : bool;
  config : Config.ConfigSchema;
  chaindata : ChainData;
  nominatorGroups : list Nominator;
  nominating : bool;
  currentEra : Z;
  bot : Handle;
  handler : Handle
}.

(** The payload published under ["jobProgress"]. *)
Module JobProgress.
Record t : Type := mk {
  name : string;
  progress : Number;
  updated : Z;
  iteration : string
}.
End JobProgress.

(** Everything the job does to the outside, in the order it does it. *)
Inductive Event : Type :=
| Logged (line : LogLine)
| GetActiveEraIndex
| GetLastNominatedEraIndex
| GetCurrentTargets (address : string)
| StartRound (nominating : bool) (currentEra : Z) (bot constraints : Handle)
    (nominatorGroups : list Nominator) (chaindata : ChainData)
    (handler : Handle) (config : Config.ConfigSchema)
    (allCurrentTargets : list Target.t)
| EndRound (ending : bool) (nominatorGroups : list Nominator)
    (chaindata : ChainData) (constraints : Handle)
    (config : Config.ConfigSchema) (bot : Handle)
| Emit (eventName : string) (payload : JobProgress.t).

(** Modelled from the spec: the collaborators of the job whose definitions
    are in other modules of the repository ([queries.getLastNominatedEraIndex],
    [queries.getCurrentTargets], [startRound], [endRound]) and the clock.
    - [getLastNominatedEraIndex() -> EraIndex]: the integer that
      [Number(lastNominatedEraIndex)] evaluates to;
    - [getCurrentTargets(address) -> sequence<Target>];
    - [startRound(...) -> void|error] and [endRound(...) -> void|error]:
      each completes with nothing ([None]) or with an error;
    - [now] is the clock read by [Date.now()]. *)
Record World : Type := mkWorld {
  lastNominatedEraIndex : Z;
  currentTargets : string -> list Target.t;
  startRoundResult : option string;
  endRoundResult : option string;
  now : Z
}.

(** ** The scheduler: computations *)

Definition Job (A : Type) : Type := World -> A * list Event.

Definition result {A} (j : Job A) (w : World) : A := fst (j w).
Definition trace {A} (j : Job A) (w : World) : list Event := snd (j w).

Definition ret {A} (a : A) : Job A := fun _ => (a, []).

Definition andThen {A B} (m : Job A) (k : A -> Job B) : Job B :=
  fun w =>
    let (a, t1) := m w in
    let (b, t2) := k a w in
    (b, (t1 ++ t2)%list).

Definition perform {A} (e : Event) (answer : World -> A) : Job A :=
  fun w => (answer w, [e]).

Declare Scope job_scope.
Delimit Scope job_scope with job.
Notation "x <- m ;; k" := (andThen m (fun x => k))
  (at level 61, m at next level, right associativity) : job_scope.
Notation "' pat <- m ;; k" := (andThen m (fun x => match x with pat => k end))
  (at level 61, pat pattern, m at next level, right associativity) : job_scope.
Notation "m ;; k" := (andThen m (fun _ => k))
  (at level 61, right associativity) : job_scope.

(** [for (const x of xs) { ... }] threading the variables the body
    updates. *)
Fixpoint for_of {A S} (xs : list A) (body : A -> S -> Job S) (s : S) : Job S :=
  match xs with
  | [] => ret s
  | x :: xs' => andThen (body x s) (for_of xs' body)
  end.

Definition logger_info (msg : string) (label : Label) : Job unit :=
  perform (Logged (mkLog Info msg label)) (fun _ => tt).

Definition logger_warn (msg : string) (label : Label) : Job unit :=
  perform (Logged (mkLog Warn msg label)) (fun _ => tt).

Definition chaindata_getActiveEraIndex (c : ChainData) : Job NumberResult :=
  perform GetActiveEraIndex (fun _ => getActiveEraIndex c).

Definition queries_getLastNominatedEraIndex : Job Z :=
  perform GetLastNominatedEraIndex lastNominatedEraIndex.

Definition queries_getCurrentTargets (address : string) : Job (list Target.t) :=
  perform (GetCurrentTargets address) (fun w => currentTargets w address).

Definition startRound (nominating : bool) (currentEra : Z)
    (bot constraints : Handle) (nominatorGroups : list Nominator)
    (chaindata : ChainData) (handler : Handle) (config : Config.ConfigSchema)
    (allCurrentTargets : list Target.t) : Job (option string) :=
  perform (StartRound nominating currentEra bot constraints nominatorGroups
             chaindata handler config allCurrentTargets) startRoundResult.

Definition endRound (ending : bool) (nominatorGroups : list Nominator)
    (chaindata : ChainData) (constraints : Handle)
    (config : Config.ConfigSchema) (bot : Handle) : Job (option string) :=
  perform (EndRound ending nominatorGroups chaindata constraints config bot)
    endRoundResult.

Definition Date_now : Job Z := fun w => (now w, []).

Definition jobStatusEmitter_emit (eventName : string)
    (payload : JobProgress.t) : Job unit :=
  perform (Emit eventName payload) (fun _ => tt).

(** [`${n}`] for an integer. *)
Definition decimal (n : Z) : string :=
  DecimalString.NilZero.string_of_int (Z.to_int n).

(** [xs.length] is falsy exactly on the empty array. *)
Definition length_is_zero {A} (xs : list A) : bool :=
  match xs with
  | [] => true
  | _ :: _ => false
  end.

(** ** The scheduler: [mainScorekeeperJob] *)

Section MainScorekeeperJob.

Local Open Scope job_scope.

(** [nominatorGroups] is an array, which is truthy even when empty, so
    that [nominatorGroups ? nominatorGroups.length : 0] is its length. *)
Definition mainScorekeeperJob (metadata : jobsMetadata) : Job unit :=
  let constraints := constraints metadata in
  let ending := ending metadata in
  let config := config metadata in
  let chaindata := chaindata metadata in
  let nominatorGroups := nominatorGroups metadata in
  let nominating := nominating metadata in
  let currentEra := currentEra metadata in
  let bot := bot metadata in
  let handler := handler metadata in
  if ending then
    logger_info "ROUND IS CURRENTLY ENDING." scorekeeperLabel
  else
    '(activeEra, err) <- chaindata_getActiveEraIndex chaindata ;;
    if truthy err then
      logger_warn ("CRITICAL: " ++ template err) scorekeeperLabel
    else
      lastNominatedEraIndex <- queries_getLastNominatedEraIndex ;;
      let eraBuffer :=
        if Config.networkPrefix (Config.global config) =? 0 then 1 else 4 in
      let isNominationRound :=
        lastNominatedEraIndex <=? activeEra - eraBuffer in
      if isNominationRound then
        let processedNominatorGroups := 0 in
        let totalNominatorGroups := Z.of_nat (List.length nominatorGroups) in
        if negb (Config.nominating (Config.scorekeeper config)) then
          logger_info
            "Nominating is disabled in the settings. Skipping round."
            scorekeeperLabel
        else
          allCurrentTargets <-
            for_of nominatorGroups
              (fun nominator allCurrentTargets =>
                 currentTargets <-
                   queries_getCurrentTargets (bondedAddress nominator) ;;
                 ret (allCurrentTargets ++ currentTargets)%list)
              [] ;;
          (if length_is_zero allCurrentTargets then
             logger_info "Current Targets is empty. Starting round."
               scorekeeperLabel ;;
             startRound nominating currentEra bot constraints
               nominatorGroups chaindata handler config allCurrentTargets
           else
             logger_info "Ending round." scorekeeperLabel ;;
             endRound ending nominatorGroups chaindata constraints config
               bot ;;
             startRound nominating currentEra bot constraints
               nominatorGroups chaindata handler config allCurrentTargets) ;;
          let processedNominatorGroups := processedNominatorGroups + 1 in
          let progress :=
            floor_ratio_percent processedNominatorGroups
              totalNominatorGroups in
          updated <- Date_now ;;
          jobStatusEmitter_emit "jobProgress"
            (JobProgress.mk "Main Scorekeeper Job" progress updated
               ("Processed nominator group "
                  ++ decimal processedNominatorGroups))
      else ret tt.

End MainScorekeeperJob.

(** ** Observations on a trace *)

Definition is_round_call (e : Event) : bool :=
  match e with
  | StartRound _ _ _ _ _ _ _ _ _ | EndRound _ _ _ _ _ _ => true
  | _ => false
  end.

(** The calls to [startRound] and [endRound], in order. *)
Definition round_calls (t : list Event) : list Event := filter is_round_call t.

(** The events published on the emitter, in order. *)
Definition emitted (t : list Event) : list (string * JobProgress.t) :=
  flat_map (fun e => match e with Emit n p => [(n, p)] | _ => [] end) t.

(** Reads of the chain ([getActiveEraIndex]) and of the round state
    ([getLastNominatedEraIndex], [getCurrentTargets]). *)
Definition is_read (e : Event) : bool :=
  match e with
  | GetActiveEraIndex | GetLastNominatedEraIndex | GetCurrentTargets _ => true
  | _ => false
  end.

Definition reads (t : list Event) : list Event := filter is_read t.

(** The targets of all groups, flattened. *)
Definition combinedTargets (w : World) (groups : list Nominator)
  : list Target.t :=
  flat_map (fun nominator => currentTargets w (bondedAddress nominator)) groups.

(** The era read of an invocation and the decision taken from it. *)
Definition activeEraOf (metadata : jobsMetadata) : Z :=
  fst (getActiveEraIndex (chaindata metadata)).

Definition eraReadFails (metadata : jobsMetadata) : bool :=
  truthy (snd (getActiveEraIndex (chaindata metadata))).

(** The local constants [eraBuffer] and [isNominationRound] of the job, as
    functions of its input and of what it reads. *)
Definition eraBuffer (config : Config.ConfigSchema) : Z :=
  if Config.networkPrefix (Config.global config) =? 0 then 1 else 4.

Definition isNominationRound (metadata : jobsMetadata) (w : World) : bool :=
  lastNominatedEraIndex w
    <=? activeEraOf metadata - eraBuffer (config metadata).

(** The invocation gets to the round: it is not ending, the era read
    succeeds, the round is due and nominating is enabled. *)
Definition runsRound (metadata : jobsMetadata) (w : World) : bool :=
  negb (ending metadata) && negb (eraReadFails metadata)
  && isNominationRound metadata w
  && Config.nominating (Config.scorekeeper (config metadata)).

(** The event of the [startRound] call of an invocation. *)
Definition startRoundOf (metadata : jobsMetadata) (targets : list Target.t)
  : Event :=
  StartRound (nominating metadata) (currentEra metadata) (bot metadata)
    (constraints metadata) (nominatorGroups metadata) (chaindata metadata)
    (handler metadata) (config metadata) targets.

Definition endRoundOf (metadata : jobsMetadata) : Event :=
  EndRound (ending metadata) (nominatorGroups metadata) (chaindata metadata)
    (constraints metadata) (config metadata) (bot metadata).

(** The progress event of an invocation over [n] groups. *)
Definition progressOf (w : World) (n : nat) : JobProgress.t :=
  JobProgress.mk "Main Scorekeeper Job"
    (floor_ratio_percent 1 (Z.of_nat n)) (now w)
    "Processed nominator group 1".

(** What the job does once it gets to the round. *)
Definition roundSteps (metadata : jobsMetadata) (w : World) : list Event :=
  let targets := combinedTargets w (nominatorGroups metadata) in
  (map (fun nominator => GetCurrentTargets (bondedAddress nominator))
     (nominatorGroups metadata)
   ++ (if length_is_zero targets
       then [Logged (mkLog Info "Current Targets is empty. Starting round."
                       scorekeeperLabel);
             startRoundOf metadata targets]
       else [Logged (mkLog Info "Ending round." scorekeeperLabel);
             endRoundOf metadata;
             startRoundOf metadata targets])
   ++ [Emit "jobProgress"
         (progressOf w (List.length (nominatorGroups metadata)))])%list.

(** ** Statements that the code does not satisfy *)

(** An empty group collection makes the round a no-op. *)
Definition emptyGroupsAreNoOp (metadata : jobsMetadata) (w : World) : Prop :=
  runsRound metadata w = true ->
  nominatorGroups metadata = [] ->
  round_calls (trace (mainScorekeeperJob metadata) w) = []
  /\ emitted (trace (mainScorekeeperJob metadata) w) = [].

(** The progress of every emitted event is an integer from 0 to 100. *)
Definition isPercentage (n : Number) : Prop :=
  match n with
  | Finite z => 0 <= z <= 100
  | Infinity => False
  end.

(** ** Observations on a query *)

(** A query that absorbs its failures: either nothing failed, and nothing
    was logged, or the exception [e] that was raised is logged once under
    [prefix] and the query returns [sentinel e]. *)
Definition absorbs {A} (p : Promise A) (prefix : string) (sentinel : Exn -> A)
  : Prop :=
  (logs p = [] /\ exists a, outcome p = Returns a)
  \/ (exists e,
        logs p = [mkLog Error (prefix ++ exn_toString e) chaindataLabel]
        /\ outcome p = Returns (sentinel e)).

(** A computation that writes no log line. *)
Definition silent {A} (p : Promise A) : Prop := logs p = [].

(** ** Sample inputs *)

Definition sampleQuery (prefs : option ValidatorPrefs)
    (bondedAccount : option OptionAccountId) (ledger : option OptionLedger)
  : Query :=
  mkQuery (fun _ => Returns prefs) (fun _ _ => Returns prefs)
    (fun _ => Returns bondedAccount) (fun _ => Returns ledger)
    (fun _ => Returns None) (Returns None) (fun _ => Returns None)
    (fun _ => Returns None) (fun _ _ => Returns None).

Definition connectedChain (q : Query) : ChainData :=
  mkChainData (Returns tt) (Some (mkApi (Some q))) (Returns 10000000000)
    (100, None).

Definition disconnectedChain : ChainData :=
  mkChainData (Throws (mkExn "Error: disconnected" "{}")) None
    (Returns 10000000000) (0, Some "{}").

Definition samplePrefs (isBlocked : string) : ValidatorPrefs :=
  mkValidatorPrefs (Some (mkCompact (Returns 50000000)))
    (Some (mkBoolCodec (Returns isBlocked))).

Definition sampleBonded : OptionAccountId :=
  mkOptionAccountId false (Returns "controller-1").

Definition sampleLedger : OptionLedger :=
  mkOptionLedger false (Returns (Some (mkLedgerJson 5000))).

Definition bondedChain : ChainData :=
  connectedChain
    (sampleQuery (Some (samplePrefs "false")) (Some sampleBonded)
       (Some sampleLedger)).


Definition sampleChainData (eraResult : NumberResult) : ChainData :=
  mkChainData (Returns tt) None (Returns 10000000000) eraResult.

Definition sampleConfig (prefix : Z) (enabled : bool) : Config.ConfigSchema :=
  Config.mk (Config.mkGlobal prefix) (Config.mkScorekeeper enabled).

Definition sampleMetadata (isEnding : bool) (eraResult : NumberResult)
    (prefix : Z) (enabled : bool) (groups : list Nominator) : jobsMetadata :=
  mkJobsMetadata (handle 0) isEnding (sampleConfig prefix enabled)
    (sampleChainData eraResult) groups false 100 (handle 1) (handle 2).

Definition sampleTarget : Target.t :=
  Target.mk (Some "validator-1") (Some "stash-1") None.

(** A store in which the group bonded at ["bonded-b"] nominates one
    target and every other group none. *)
Definition sampleWorld (lastNominated : Z) : World :=
  mkWorld lastNominated
    (fun address =>
       if String.eqb address "bonded-b" then [sampleTarget] else [])
    None None 1700000000000.

Definition threeGroups : list Nominator :=
  [mkNominator "bonded-1"; mkNominator "bonded-2"; mkNominator "bonded-3"].


(** ** Further observations and sample inputs *)

(** The log lines of a trace, in order. *)
Definition logged (t : list Event) : list LogLine :=
  flat_map (fun e => match e with Logged l => [l] | _ => [] end) t.

(** A conversion of one queued key entry, as [getQueuedKeys] performs it. *)
Definition queuedKeyOf (entry : AccountId * SessionKeys) (r : QueuedKey.t)
  : Prop :=
  account_toString (fst entry) = Returns (QueuedKey.address r)
  /\ toHex (snd entry) = Returns (QueuedKey.keys r).

(** An entry of the queue one of whose conversions throws. *)
Definition queuedKeyThrows (entry : AccountId * SessionKeys) : Prop :=
  (exists e, account_toString (fst entry) = Throws e)
  \/ (exists e, toHex (snd entry) = Throws e).

(** The stake of one nominator, as [getExposure] converts it. *)
Definition stakeOf (denom : Z) (stake : IndividualExposure) (r : Stake.t)
  : Prop :=
  who_toString stake = Returns (Stake.address r)
  /\ exists v, value_toString stake = Returns v
               /\ Stake.bonded r = parseFloat_div v denom.

(** An [Option<AccountId>] that is none; its string form is empty. *)
Definition noneBonded : OptionAccountId :=
  mkOptionAccountId true (Returns "").

(** A chain whose only answers are the payee of every stash and the queued
    and next session keys. *)
Definition sessionQuery (payee : option RewardDestination)
    (queued : option (list (AccountId * SessionKeys)))
    (next : option OptionKeys) : Query :=
  mkQuery (fun _ => Returns None) (fun _ _ => Returns None)
    (fun _ => Returns None) (fun _ => Returns None)
    (fun _ => Returns payee) (Returns queued) (fun _ => Returns next)
    (fun _ => Returns None) (fun _ _ => Returns None).

(** A chain whose only answers are the account and the stakers of every
    address. *)
Definition stakersQuery (account : option AccountInfo)
    (stakers : option ExposureCodec) : Query :=
  mkQuery (fun _ => Returns None) (fun _ _ => Returns None)
    (fun _ => Returns None) (fun _ => Returns None)
    (fun _ => Returns None) (Returns None) (fun _ => Returns None)
    (fun _ => Returns account) (fun _ _ => Returns stakers).

Definition accountPayee : RewardDestination :=
  mkRewardDestination (Returns (PayeeObject (Some "payee-1")))
    (Returns "{account: payee-1}").

Definition sampleQueue : list (AccountId * SessionKeys) :=
  [(mkAccountId (Returns "validator-1"), mkSessionKeys (Returns "0x01"));
   (mkAccountId (Returns "validator-2"), mkSessionKeys (Returns "0x02"))].

Definition brokenQueue : list (AccountId * SessionKeys) :=
  [(mkAccountId (Returns "validator-1"), mkSessionKeys (Returns "0x01"));
   (mkAccountId (Returns "validator-2"),
    mkSessionKeys (Throws (TypeError "keys.toHex is not a function")))].

Definition sampleStakers : ExposureCodec :=
  mkExposureCodec (Returns "3000") (Returns "1000")
    [mkIndividualExposure (Returns "nominator-1") (Returns "1500");
     mkIndividualExposure (Returns "nominator-2") (Returns "500")]
    (Returns [mkIndividualExposureJson (Some "nominator-1") 1500;
              mkIndividualExposureJson (Some "nominator-2") 500]).

(** A chain handle like [connectedChain] with another denomination. *)
Definition chainWithDenom (q : Query) (denom : Z) : ChainData :=
  mkChainData (Returns tt) (Some (mkApi (Some q))) (Returns denom) (100, None).

(** ** The [try] block of each query *)

(** The body of the [try] of a query, read off its definition. *)
Ltac try_block_of q :=
  let t := eval cbv delta [getCommission getCommissionInEra getBlocked
                             getBondedAmount getControllerFromStash
                             getRewardDestination getRewardDestinationAt
                             getQueuedKeys getNextKeys getBalance getExposure
                             getExposureAt] beta in q in
  lazymatch t with
  | try_catch ?body _ => exact body
  | bind (try_catch ?body _) _ => exact body
  end.

Definition getCommission_try (c : ChainData) (validator : string)
  : Promise NumberResult :=
  ltac:(try_block_of (getCommission c validator)).

Definition getCommissionInEra_try (c : ChainData) (apiAt : option Api)
    (eraIndex : Z) (validator : string) : Promise (Nullable Z) :=
  ltac:(try_block_of (getCommissionInEra c apiAt eraIndex validator)).

Definition getBlocked_try (c : ChainData) (validator : string) : Promise bool :=
  ltac:(try_block_of (getBlocked c validator)).

Definition getBondedAmount_try (c : ChainData) (stash : string)
  : Promise NumberResult :=
  ltac:(try_block_of (getBondedAmount c stash)).

Definition getControllerFromStash_try (c : ChainData) (stash : string)
  : Promise (option string) :=
  ltac:(try_block_of (getControllerFromStash c stash)).

Definition getRewardDestination_try (c : ChainData) (stash : string)
  : Promise (option string) :=
  ltac:(try_block_of (getRewardDestination c stash)).

Definition getRewardDestinationAt_try (c : ChainData) (apiAt : option Api)
    (stash : string) : Promise (option string) :=
  ltac:(try_block_of (getRewardDestinationAt c apiAt stash)).

Definition getQueuedKeys_try (c : ChainData) : Promise (list QueuedKey.t) :=
  ltac:(try_block_of (getQueuedKeys c)).

(** The block of [getNextKeys] returns ([Some r]) or falls through
    ([None]). *)
Definition getNextKeys_try (c : ChainData) (stash : string)
  : Promise (option (option NextKeys.t)) :=
  ltac:(try_block_of (getNextKeys c stash)).

Definition getBalance_try (c : ChainData) (address : string)
  : Promise (option Balance.t) :=
  ltac:(try_block_of (getBalance c address)).

Definition getExposure_try (c : ChainData) (eraIndex : Z) (validator : string)
  : Promise (option Exposure.t) :=
  ltac:(try_block_of (getExposure c eraIndex validator)).

Definition getExposureAt_try (c : ChainData) (apiAt : option Api)
    (eraIndex : Z) (validator : string) : Promise (option Exposure.t) :=
  ltac:(try_block_of (getExposureAt c apiAt eraIndex validator)).

(** ** What it means for a query to convert its failures *)

(** The query caught [e]: it logged it once under [prefix] and returned
    [sentinel e]. *)
Definition caught {A} (q : Promise A) (prefix : string) (sentinel : Exn -> A)
    (e : Exn) : Prop :=
  q = ([mkLog Error (prefix ++ exn_toString e) chaindataLabel],
       Returns (sentinel e)).

(** The query returns what its [try] block returns, silently, and catches
    whatever its [try] block throws. *)
Definition converts {A} (q body : Promise A) (prefix : string)
    (sentinel : Exn -> A) : Prop :=
  (forall a, outcome body = Returns a -> q = ([], Returns a))
  /\ (forall e, outcome body = Throws e -> caught q prefix sentinel e).

(** The same for [getNextKeys], whose [try] block may fall through to the
    final [return null]. *)
Definition converts_or_falls_through {A} (q : Promise (option A))
    (body : Promise (option (option A))) (prefix : string) : Prop :=
  (forall r, outcome body = Returns (Some r) -> q = ([], Returns r))
  /\ (outcome body = Returns None -> q = ([], Returns None))
  /\ (forall e, outcome body = Throws e -> caught q prefix (fun _ => None) e).

(** The storage call [call] is made on [api] and rejects with [e]. *)
Definition rejects {A} (api : option Api) (call : Query -> Outcome A)
    (e : Exn) : Prop :=
  exists a q, api = Some a /\ query a = Some q /\ call q = Throws e.

(** Every exception thrown inside the [try] block of a query, by whichever
    call, is converted into the sentinel of that query. *)
Definition throwsAreConverted (c : ChainData) (apiAt : option Api)
    (eraIndex : Z) (s : string) : Prop :=
  converts (getCommission c s) (getCommission_try c s)
    "Error getting commission: " (fun e => (0, Some (JSON_stringify e)))
  /\ converts (getCommissionInEra c apiAt eraIndex s)
       (getCommissionInEra_try c apiAt eraIndex s)
       "Error getting commission in era: " (fun _ => Null)
  /\ converts (getBlocked c s) (getBlocked_try c s)
       "Error getting blocked: " (fun _ => false)
  /\ converts (getBondedAmount c s) (getBondedAmount_try c s)
       "Error getting bonded amount: " (fun e => (0, Some (JSON_stringify e)))
  /\ converts (getControllerFromStash c s) (getControllerFromStash_try c s)
       "Error getting controller from stash: " (fun _ => None)
  /\ converts (getRewardDestination c s) (getRewardDestination_try c s)
       "Error getting reward destination: " (fun _ => None)
  /\ converts (getRewardDestinationAt c apiAt s)
       (getRewardDestinationAt_try c apiAt s)
       "Error getting reward destination: " (fun _ => None)
  /\ converts (getQueuedKeys c) (getQueuedKeys_try c)
       "Error getting queued keys: " (fun _ => [])
  /\ converts_or_falls_through (getNextKeys c s) (getNextKeys_try c s)
       "Error getting next keys: "
  /\ converts (getBalance c s) (getBalance_try c s)
       "Error getting balance: " (fun _ => None)
  /\ converts (getExposure c eraIndex s) (getExposure_try c eraIndex s)
       "Error getting exposure: " (fun _ => None)
  /\ converts (getExposureAt c apiAt eraIndex s)
       (getExposureAt_try c apiAt eraIndex s)
       "Error getting exposure: " (fun _ => None).

(** A connection check that throws [e] is converted by every query. *)
Definition connectionFailureIsConverted (c : ChainData) (apiAt : option Api)
    (eraIndex : Z) (s : string) (e : Exn) : Prop :=
  caught (getCommission c s) "Error getting commission: "
    (fun e => (0, Some (JSON_stringify e))) e
  /\ caught (getCommissionInEra c apiAt eraIndex s)
       "Error getting commission in era: " (fun _ => Null) e
  /\ caught (getBlocked c s) "Error getting blocked: " (fun _ => false) e
  /\ caught (getBondedAmount c s) "Error getting bonded amount: "
       (fun e => (0, Some (JSON_stringify e))) e
  /\ caught (getControllerFromStash c s)
       "Error getting controller from stash: " (fun _ => None) e
  /\ caught (getRewardDestination c s) "Error getting reward destination: "
       (fun _ => None) e
  /\ caught (getRewardDestinationAt c apiAt s)
       "Error getting reward destination: " (fun _ => None) e
  /\ caught (getQueuedKeys c) "Error getting queued keys: " (fun _ => []) e
  /\ caught (getNextKeys c s) "Error getting next keys: " (fun _ => None) e
  /\ caught (getBalance c s) "Error getting balance: " (fun _ => None) e
  /\ caught (getExposure c eraIndex s) "Error getting exposure: "
       (fun _ => None) e
  /\ caught (getExposureAt c apiAt eraIndex s) "Error getting exposure: "
       (fun _ => None) e.

(** With a working connection (and, for the exposures, a denomination at
    hand), a storage call of the underlying API that rejects with [e] is
    converted by the query that makes it. *)
Definition rejectedCallIsConverted (c : ChainData) (apiAt : option Api)
    (eraIndex : Z) (s : string) (e : Exn) : Prop :=
  (rejects (api c) (fun q => staking_validators q s) e ->
   caught (getCommission c s) "Error getting commission: "
     (fun e => (0, Some (JSON_stringify e))) e
   /\ caught (getBlocked c s) "Error getting blocked: " (fun _ => false) e)
  /\ (rejects apiAt (fun q => staking_erasValidatorPrefs q eraIndex s) e ->
      caught (getCommissionInEra c apiAt eraIndex s)
        "Error getting commission in era: " (fun _ => Null) e)
  /\ (rejects (api c) (fun q => staking_bonded q s) e ->
      caught (getBondedAmount c s) "Error getting bonded amount: "
        (fun e => (0, Some (JSON_stringify e))) e
      /\ caught (getControllerFromStash c s)
           "Error getting controller from stash: " (fun _ => None) e)
  /\ (rejects (api c) (fun q => staking_payee q s) e ->
      caught (getRewardDestination c s) "Error getting reward destination: "
        (fun _ => None) e)
  /\ (rejects apiAt (fun q => staking_payee q s) e ->
      caught (getRewardDestinationAt c apiAt s)
        "Error getting reward destination: " (fun _ => None) e)
  /\ (rejects (api c) session_queuedKeys e ->
      caught (getQueuedKeys c) "Error getting queued keys: " (fun _ => []) e)
  /\ (rejects (api c) (fun q => session_nextKeys q s) e ->
      caught (getNextKeys c s) "Error getting next keys: " (fun _ => None) e)
  /\ (rejects (api c) (fun q => system_account q s) e ->
      caught (getBalance c s) "Error getting balance: " (fun _ => None) e)
  /\ (forall denom,
        getDenom c = Returns denom ->
        rejects (api c) (fun q => staking_erasStakers q eraIndex s) e ->
        caught (getExposure c eraIndex s) "Error getting exposure: "
          (fun _ => None) e)
  /\ (forall denom,
        getDenom c = Returns denom ->
        rejects apiAt (fun q => staking_erasStakers q eraIndex s) e ->
        caught (getExposureAt c apiAt eraIndex s) "Error getting exposure: "
          (fun _ => None) e).

(** ** The error of a failed era read *)

(** Modelled from the spec: [getActiveEraIndex() -> (EraIndex, error|null)]
    is defined in another module of the repository.  Its error is a reason
    as the number results of this layer carry them: a fixed message or
    [JSON.stringify] of the caught value, which is a JSON text and never
    the empty string. *)
Definition isErrorReason (reason : string) : Prop := reason <> "".

(** ** Missing data of a historic commission *)

(** What [getCommissionInEra] finds missing: [apiAt], its [query], the
    preferences, or their commission. *)
Definition commissionDataMissing (apiAt : option Api) (eraIndex : Z)
    (validator : string) : Prop :=
  apiAt = None
  \/ (exists a, apiAt = Some a /\ query a = None)
  \/ (exists a q,
        apiAt = Some a /\ query a = Some q
        /\ staking_erasValidatorPrefs q eraIndex validator = Returns None)
  \/ (exists a q prefs,
        apiAt = Some a /\ query a = Some q
        /\ staking_erasValidatorPrefs q eraIndex validator
           = Returns (Some prefs)
        /\ commission prefs = None).


(** * Properties of the scheduler *)

(** ** The loop over the groups *)

Lemma for_of_targets (w : World) (groups : list Nominator)
    (acc : list Target.t) :
  for_of groups
    (fun nominator allCurrentTargets =>
       andThen (queries_getCurrentTargets (bondedAddress nominator))
         (fun currentTargets => ret (allCurrentTargets ++ currentTargets)%list))
    acc w
  = ((acc ++ combinedTargets w groups)%list,
     map (fun nominator => GetCurrentTargets (bondedAddress nominator)) groups).
Proof.
  revert acc. induction groups as [| g groups IH]; intros acc.
  - cbn. now rewrite app_nil_r.
  - cbn [for_of]. unfold andThen at 1.
    cbn [queries_getCurrentTargets perform andThen ret app].
    rewrite IH. cbn [combinedTargets flat_map map].
    fold (combinedTargets w groups). now rewrite app_assoc.
Qed.

Lemma round_calls_app (t1 t2 : list Event) :
  round_calls (t1 ++ t2) = (round_calls t1 ++ round_calls t2)%list.
Proof. apply filter_app. Qed.

Lemma emitted_app (t1 t2 : list Event) :
  emitted (t1 ++ t2) = (emitted t1 ++ emitted t2)%list.
Proof. apply flat_map_app. Qed.

Lemma round_calls_target_reads (groups : list Nominator) :
  round_calls
    (map (fun nominator => GetCurrentTargets (bondedAddress nominator)) groups)
  = [].
Proof. induction groups as [| g groups IH]; [reflexivity | exact IH]. Qed.

Lemma emitted_target_reads (groups : list Nominator) :
  emitted
    (map (fun nominator => GetCurrentTargets (bondedAddress nominator)) groups)
  = [].
Proof. induction groups as [| g groups IH]; [reflexivity | exact IH]. Qed.

(** ** The shape of every run *)

Lemma trace_ending (metadata : jobsMetadata) (w : World) :
  ending metadata = true ->
  trace (mainScorekeeperJob metadata) w
  = [Logged (mkLog Info "ROUND IS CURRENTLY ENDING." scorekeeperLabel)].
Proof.
  intros He. unfold trace, mainScorekeeperJob. now rewrite He.
Qed.

Lemma trace_era_read_fails (metadata : jobsMetadata) (w : World) :
  ending metadata = false ->
  eraReadFails metadata = true ->
  trace (mainScorekeeperJob metadata) w
  = [GetActiveEraIndex;
     Logged (mkLog Warn
               ("CRITICAL: "
                  ++ template (snd (getActiveEraIndex (chaindata metadata))))
               scorekeeperLabel)].
Proof.
  intros He Hf. unfold eraReadFails in Hf.
  unfold trace, mainScorekeeperJob. rewrite He.
  unfold chaindata_getActiveEraIndex, perform, andThen.
  destruct (getActiveEraIndex (chaindata metadata)) as [activeEra err].
  cbn in Hf. now rewrite Hf.
Qed.

Lemma trace_not_due (metadata : jobsMetadata) (w : World) :
  ending metadata = false ->
  eraReadFails metadata = false ->
  isNominationRound metadata w = false ->
  trace (mainScorekeeperJob metadata) w
  = [GetActiveEraIndex; GetLastNominatedEraIndex].
Proof.
  intros He Hf Hd. unfold eraReadFails in Hf.
  unfold isNominationRound, eraBuffer, activeEraOf in Hd.
  unfold trace, mainScorekeeperJob. rewrite He.
  unfold chaindata_getActiveEraIndex, queries_getLastNominatedEraIndex,
    perform, andThen.
  destruct (getActiveEraIndex (chaindata metadata)) as [activeEra err].
  cbn in Hf, Hd. rewrite Hf. cbn. now rewrite Hd.
Qed.

Lemma trace_disabled (metadata : jobsMetadata) (w : World) :
  ending metadata = false ->
  eraReadFails metadata = false ->
  isNominationRound metadata w = true ->
  Config.nominating (Config.scorekeeper (config metadata)) = false ->
  trace (mainScorekeeperJob metadata) w
  = [GetActiveEraIndex; GetLastNominatedEraIndex;
     Logged (mkLog Info
               "Nominating is disabled in the settings. Skipping round."
               scorekeeperLabel)].
Proof.
  intros He Hf Hd Hn. unfold eraReadFails in Hf.
  unfold isNominationRound, eraBuffer, activeEraOf in Hd.
  unfold trace, mainScorekeeperJob. rewrite He.
  unfold chaindata_getActiveEraIndex, queries_getLastNominatedEraIndex,
    perform, andThen.
  destruct (getActiveEraIndex (chaindata metadata)) as [activeEra err].
  cbn in Hf, Hd. rewrite Hf. cbn. rewrite Hd, Hn. reflexivity.
Qed.

Lemma trace_round (metadata : jobsMetadata) (w : World) :
  ending metadata = false ->
  eraReadFails metadata = false ->
  isNominationRound metadata w = true ->
  Config.nominating (Config.scorekeeper (config metadata)) = true ->
  trace (mainScorekeeperJob metadata) w
  = ([GetActiveEraIndex; GetLastNominatedEraIndex]
       ++ roundSteps metadata w)%list.
Proof.
  intros He Hf Hd Hn. unfold eraReadFails in Hf.
  unfold isNominationRound, eraBuffer, activeEraOf in Hd.
  unfold trace, mainScorekeeperJob. rewrite He.
  unfold chaindata_getActiveEraIndex, queries_getLastNominatedEraIndex.
  unfold andThen at 1. unfold perform at 1.
  destruct (getActiveEraIndex (chaindata metadata)) as [activeEra err].
  cbn in Hf, Hd. rewrite Hf.
  unfold andThen at 1. unfold perform at 1. cbn [fst snd].
  rewrite Hd, Hn. cbn [negb].
  unfold andThen at 1. rewrite for_of_targets. cbn [app].
  unfold roundSteps, startRoundOf, endRoundOf, progressOf.
  rewrite He.
  destruct (combinedTargets w (nominatorGroups metadata)) as [| t ts];
    cbn; rewrite <- ?app_assoc; reflexivity.
Qed.

Lemma runsRound_true (metadata : jobsMetadata) (w : World) :
  runsRound metadata w = true ->
  ending metadata = false /\ eraReadFails metadata = false
  /\ isNominationRound metadata w = true
  /\ Config.nominating (Config.scorekeeper (config metadata)) = true.
Proof.
  unfold runsRound. intros H.
  apply andb_prop in H as [H Hn]. apply andb_prop in H as [H Hd].
  apply andb_prop in H as [He Hf].
  apply negb_true_iff in He, Hf. auto.
Qed.

Lemma roundSteps_not_nil (metadata : jobsMetadata) (w : World) :
  roundSteps metadata w <> [].
Proof.
  unfold roundSteps. intros H.
  apply app_eq_nil in H as [_ H]. apply app_eq_nil in H as [_ H].
  discriminate H.
Qed.

Lemma round_calls_roundSteps (metadata : jobsMetadata) (w : World) :
  round_calls (roundSteps metadata w)
  = if length_is_zero (combinedTargets w (nominatorGroups metadata))
    then [startRoundOf metadata (combinedTargets w (nominatorGroups metadata))]
    else [endRoundOf metadata;
          startRoundOf metadata (combinedTargets w (nominatorGroups metadata))].
Proof.
  unfold roundSteps. cbv zeta.
  rewrite !round_calls_app, round_calls_target_reads.
  destruct (length_is_zero _); reflexivity.
Qed.

Lemma emitted_roundSteps (metadata : jobsMetadata) (w : World) :
  emitted (roundSteps metadata w)
  = [("jobProgress", progressOf w (List.length (nominatorGroups metadata)))].
Proof.
  unfold roundSteps. cbv zeta.
  rewrite !emitted_app, emitted_target_reads.
  destruct (length_is_zero _); reflexivity.
Qed.

(** An invocation that does not get to the round calls neither
    [startRound] nor [endRound] and publishes nothing. *)
Lemma no_round_no_effect (metadata : jobsMetadata) (w : World) :
  runsRound metadata w = false ->
  round_calls (trace (mainScorekeeperJob metadata) w) = []
  /\ emitted (trace (mainScorekeeperJob metadata) w) = [].
Proof.
  unfold runsRound. intros H.
  destruct (ending metadata) eqn:He.
  { rewrite (trace_ending metadata w He). now split. }
  destruct (eraReadFails metadata) eqn:Hf.
  { rewrite (trace_era_read_fails metadata w He Hf). now split. }
  destruct (isNominationRound metadata w) eqn:Hd.
  - cbn in H. rewrite (trace_disabled metadata w He Hf Hd H). now split.
  - rewrite (trace_not_due metadata w He Hf Hd). now split.
Qed.

(** An invocation that gets to the round publishes one event, whose
    progress is computed from the number of groups. *)
Lemma round_emits_progress (metadata : jobsMetadata) (w : World) :
  runsRound metadata w = true ->
  emitted (trace (mainScorekeeperJob metadata) w)
  = [("jobProgress", progressOf w (List.length (nominatorGroups metadata)))].
Proof.
  intros H. apply runsRound_true in H as (He & Hf & Hd & Hn).
  rewrite (trace_round metadata w He Hf Hd Hn), emitted_app.
  apply emitted_roundSteps.
Qed.

(** With at least one group the progress is [floor (100 / totalGroups)],
    an integer from 0 to 100. *)
Lemma progress_of_groups (w : World) (n : nat) :
  (0 < n)%nat ->
  JobProgress.progress (progressOf w n) = Finite (100 / Z.of_nat n)
  /\ isPercentage (JobProgress.progress (progressOf w n)).
Proof.
  intros Hn. unfold progressOf, floor_ratio_percent.
  cbn [JobProgress.progress].
  destruct (Z.eqb_spec (Z.of_nat n) 0) as [E | _]; [lia |].
  change (1 * 100) with 100. split; [reflexivity |].
  cbn [isPercentage]. split.
  - apply Z.div_pos; lia.
  - apply Z.div_le_upper_bound; lia.
Qed.

(** The progress computed on integers is the one the machine computes on
    binary64 numbers, for every group count from 0 to 1999. *)
Lemma floor_ratio_percent_binary64 : binary64_agrees 0 2000 = true.
Proof. vm_compute. reflexivity. Qed.

(** ** The claims on the scheduler *)

(** C1. With [ending] false and a successful era read, the round is found
    due exactly when LastNominatedEraIndex <= ActiveEra - EraBuffer, where
    EraBuffer is 1 when the network prefix is 0 and 4 for every other
    prefix.  The decision shows in what the job does: when the comparison
    holds it goes on after its two reads, and when it fails it stops
    there. *)
Theorem eligibility_is_era_comparison (metadata : jobsMetadata) (w : World) :
  ending metadata = false ->
  eraReadFails metadata = false ->
  (Config.networkPrefix (Config.global (config metadata)) = 0 ->
   eraBuffer (config metadata) = 1)
  /\ (Config.networkPrefix (Config.global (config metadata)) <> 0 ->
      eraBuffer (config metadata) = 4)
  /\ (isNominationRound metadata w = true
      <-> lastNominatedEraIndex w
          <= activeEraOf metadata - eraBuffer (config metadata))
  /\ (lastNominatedEraIndex w
        <= activeEraOf metadata - eraBuffer (config metadata) ->
      exists rest,
        rest <> []
        /\ trace (mainScorekeeperJob metadata) w
           = ([GetActiveEraIndex; GetLastNominatedEraIndex] ++ rest)%list)
  /\ (~ lastNominatedEraIndex w
          <= activeEraOf metadata - eraBuffer (config metadata) ->
      trace (mainScorekeeperJob metadata) w
      = [GetActiveEraIndex; GetLastNominatedEraIndex]).
Proof.
  intros He Hf.
  assert (Hiff : isNominationRound metadata w = true
                 <-> lastNominatedEraIndex w
                     <= activeEraOf metadata - eraBuffer (config metadata))
    by (unfold isNominationRound; apply Z.leb_le).
  repeat split.
  - intros E. unfold eraBuffer. now rewrite E.
  - intros N. unfold eraBuffer.
    now destruct (Z.eqb_spec (Config.networkPrefix
                                (Config.global (config metadata))) 0).
  - apply Hiff.
  - apply Hiff.
  - intros Hle. apply Hiff in Hle.
    destruct (Config.nominating (Config.scorekeeper (config metadata))) eqn:Hn.
    + exists (roundSteps metadata w). split.
      * apply roundSteps_not_nil.
      * now apply trace_round.
    + eexists. split; [| now apply trace_disabled]. discriminate.
  - intros Hnle. apply trace_not_due; trivial.
    destruct (isNominationRound metadata w) eqn:Hd; [| reflexivity].
    exfalso. apply Hnle. now apply Hiff.
Qed.

Lemma eligibility_is_era_comparison_witness :
  isNominationRound (sampleMetadata false (100, None) 0 true threeGroups)
    (sampleWorld 95) = true
  <-> 95 <= 100 - 1.
Proof.
  exact (proj1 (proj2 (proj2
           (eligibility_is_era_comparison
              (sampleMetadata false (100, None) 0 true threeGroups)
              (sampleWorld 95) eq_refl eq_refl)))).
Defined.

(** C2. In an invocation that gets to the round (eligible, nominating
    enabled): if the targets of all groups, flattened, are empty, the only
    round call is one [startRound]; otherwise the round calls are one
    [endRound] followed by one [startRound]. *)
Theorem round_ends_then_starts (metadata : jobsMetadata) (w : World) :
  runsRound metadata w = true ->
  (combinedTargets w (nominatorGroups metadata) = [] ->
   round_calls (trace (mainScorekeeperJob metadata) w)
   = [startRoundOf metadata []])
  /\ (combinedTargets w (nominatorGroups metadata) <> [] ->
      round_calls (trace (mainScorekeeperJob metadata) w)
      = [endRoundOf metadata;
         startRoundOf metadata
           (combinedTargets w (nominatorGroups metadata))]).
Proof.
  intros H. apply runsRound_true in H as (He & Hf & Hd & Hn).
  rewrite (trace_round metadata w He Hf Hd Hn), round_calls_app.
  rewrite round_calls_roundSteps. cbn [round_calls filter is_round_call app].
  split; intros Ht.
  - now rewrite Ht.
  - destruct (combinedTargets w (nominatorGroups metadata)); [easy |].
    reflexivity.
Qed.

Lemma round_ends_then_starts_witness :
  round_calls
    (trace
       (mainScorekeeperJob
          (sampleMetadata false (100, None) 0 true [mkNominator "bonded-b"]))
       (sampleWorld 95))
  = [endRoundOf
       (sampleMetadata false (100, None) 0 true [mkNominator "bonded-b"]);
     startRoundOf
       (sampleMetadata false (100, None) 0 true [mkNominator "bonded-b"])
       [sampleTarget]].
Proof.
  apply (round_ends_then_starts
           (sampleMetadata false (100, None) 0 true [mkNominator "bonded-b"])
           (sampleWorld 95) eq_refl).
  discriminate.
Defined.

(** C3, as stated, fails: with no group at all the combined target list is
    empty, so the job starts a round and publishes its progress. *)
Lemma empty_groups_start_a_round :
  ~ emptyGroupsAreNoOp (sampleMetadata false (100, None) 0 true [])
      (sampleWorld 95).
Proof.
  intros H. destruct (H eq_refl eq_refl) as [Hcalls _].
  vm_compute in Hcalls. discriminate Hcalls.
Qed.

(** C3, amended. In an invocation that gets to the round with an empty
    group collection, no targets are read, [startRound] is called exactly
    once (with no groups and no targets), [endRound] is not called, and
    exactly one event is published, under ["jobProgress"]. *)
Theorem empty_groups_round (metadata : jobsMetadata) (w : World) :
  runsRound metadata w = true ->
  nominatorGroups metadata = [] ->
  reads (trace (mainScorekeeperJob metadata) w)
  = [GetActiveEraIndex; GetLastNominatedEraIndex]
  /\ round_calls (trace (mainScorekeeperJob metadata) w)
     = [startRoundOf metadata []]
  /\ exists payload,
       emitted (trace (mainScorekeeperJob metadata) w)
       = [("jobProgress", payload)].
Proof.
  intros H Hg. pose proof (round_emits_progress metadata w H) as Hemit.
  apply runsRound_true in H as (He & Hf & Hd & Hn).
  rewrite (trace_round metadata w He Hf Hd Hn) in *.
  unfold roundSteps in *. rewrite Hg in *. repeat split.
  eexists. exact Hemit.
Qed.

Lemma empty_groups_round_witness :
  round_calls
    (trace (mainScorekeeperJob (sampleMetadata false (100, None) 0 true []))
       (sampleWorld 95))
  = [startRoundOf (sampleMetadata false (100, None) 0 true []) []].
Proof.
  exact (proj1 (proj2
           (empty_groups_round (sampleMetadata false (100, None) 0 true [])
              (sampleWorld 95) eq_refl eq_refl))).
Defined.

(** C4, evaluated where it fails. With an empty group collection the
    invocation gets to the round and publishes one event whose progress is
    [Math.floor((1 / 0) * 100)], that is [Infinity], and not an integer
    from 0 to 100. *)
Theorem progress_of_empty_groups :
  runsRound (sampleMetadata false (100, None) 0 true []) (sampleWorld 95)
  = true
  /\ emitted
       (trace (mainScorekeeperJob (sampleMetadata false (100, None) 0 true []))
          (sampleWorld 95))
     = [("jobProgress",
         JobProgress.mk "Main Scorekeeper Job" Infinity 1700000000000
           "Processed nominator group 1")]
  /\ ~ isPercentage Infinity.
Proof.
  split; [reflexivity |]. split; [reflexivity |]. intros H. exact H.
Qed.

(** C5. With [ending] true the job logs one line and returns: it reads
    neither the chain nor the round state, calls neither [startRound] nor
    [endRound], and publishes nothing. *)
Theorem ending_is_noop (metadata : jobsMetadata) (w : World) :
  ending metadata = true ->
  trace (mainScorekeeperJob metadata) w
  = [Logged (mkLog Info "ROUND IS CURRENTLY ENDING." scorekeeperLabel)]
  /\ reads (trace (mainScorekeeperJob metadata) w) = []
  /\ round_calls (trace (mainScorekeeperJob metadata) w) = []
  /\ emitted (trace (mainScorekeeperJob metadata) w) = [].
Proof.
  intros He. rewrite (trace_ending metadata w He). repeat split.
Qed.

Lemma ending_is_noop_witness :
  reads
    (trace
       (mainScorekeeperJob (sampleMetadata true (100, None) 0 true threeGroups))
       (sampleWorld 95))
  = [].
Proof.
  exact (proj1 (proj2
           (ending_is_noop (sampleMetadata true (100, None) 0 true threeGroups)
              (sampleWorld 95) eq_refl))).
Defined.

(** The guard is [if (err)].  When the era read returns a truthy error, the
    job logs it at warning severity and returns: the era read is its only
    read, it calls neither [startRound] nor [endRound], and it publishes
    nothing. *)
Theorem truthy_error_aborts (metadata : jobsMetadata) (w : World) :
  ending metadata = false ->
  eraReadFails metadata = true ->
  trace (mainScorekeeperJob metadata) w
  = [GetActiveEraIndex;
     Logged (mkLog Warn
               ("CRITICAL: "
                  ++ template (snd (getActiveEraIndex (chaindata metadata))))
               scorekeeperLabel)]
  /\ reads (trace (mainScorekeeperJob metadata) w) = [GetActiveEraIndex]
  /\ round_calls (trace (mainScorekeeperJob metadata) w) = []
  /\ emitted (trace (mainScorekeeperJob metadata) w) = [].
Proof.
  intros He Hf. rewrite (trace_era_read_fails metadata w He Hf).
  repeat split.
Qed.

Lemma truthy_error_aborts_witness :
  trace
    (mainScorekeeperJob
       (sampleMetadata false (0, Some "{}") 0 true threeGroups))
    (sampleWorld 95)
  = [GetActiveEraIndex;
     Logged (mkLog Warn "CRITICAL: {}" scorekeeperLabel)].
Proof.
  exact (proj1
           (truthy_error_aborts
              (sampleMetadata false (0, Some "{}") 0 true threeGroups)
              (sampleWorld 95) eq_refl eq_refl)).
Defined.

(** C7. With nominating disabled in the configuration the job calls
    neither [startRound] nor [endRound] and publishes nothing, whatever
    else holds; when the round is due it stops after its two reads with
    one log line. *)
Theorem disabled_nominating_skips_round (metadata : jobsMetadata) (w : World) :
  Config.nominating (Config.scorekeeper (config metadata)) = false ->
  round_calls (trace (mainScorekeeperJob metadata) w) = []
  /\ emitted (trace (mainScorekeeperJob metadata) w) = []
  /\ (ending metadata = false ->
      eraReadFails metadata = false ->
      isNominationRound metadata w = true ->
      trace (mainScorekeeperJob metadata) w
      = [GetActiveEraIndex; GetLastNominatedEraIndex;
         Logged (mkLog Info
                   "Nominating is disabled in the settings. Skipping round."
                   scorekeeperLabel)]).
Proof.
  intros Hn.
  assert (Hno : runsRound metadata w = false)
    by (unfold runsRound; rewrite Hn; apply andb_false_r).
  destruct (no_round_no_effect metadata w Hno) as [Hc He].
  repeat split; trivial.
  intros Hend Hf Hd. now apply trace_disabled.
Qed.

Lemma disabled_nominating_skips_round_witness :
  isNominationRound (sampleMetadata false (100, None) 0 false threeGroups)
    (sampleWorld 95) = true
  /\ round_calls
       (trace
          (mainScorekeeperJob
             (sampleMetadata false (100, None) 0 false threeGroups))
          (sampleWorld 95))
     = [].
Proof.
  split; [reflexivity |].
  exact (proj1
           (disabled_nominating_skips_round
              (sampleMetadata false (100, None) 0 false threeGroups)
              (sampleWorld 95) eq_refl)).
Defined.

(** The scenarios of the specification. *)

Example scenario_eligible :
  isNominationRound (sampleMetadata false (100, None) 0 true threeGroups)
    (sampleWorld 95) = true.
Proof. reflexivity. Qed.

Example scenario_not_eligible :
  trace (mainScorekeeperJob (sampleMetadata false (100, None) 2 true threeGroups))
    (sampleWorld 98)
  = [GetActiveEraIndex; GetLastNominatedEraIndex].
Proof. reflexivity. Qed.

Example scenario_three_groups :
  emitted
    (trace (mainScorekeeperJob (sampleMetadata false (100, None) 0 true threeGroups))
       (sampleWorld 95))
  = [("jobProgress",
      JobProgress.mk "Main Scorekeeper Job" (Finite 33) 1700000000000
        "Processed nominator group 1")].
Proof. reflexivity. Qed.

(** * Properties of the query layer *)

(** ** Computations that write no log line *)

Lemma silent_resolve {A} (a : A) : silent (resolve a).
Proof. reflexivity. Qed.

Lemma silent_throw {A} (e : Exn) : silent (@throw A e).
Proof. reflexivity. Qed.

Lemma silent_await {A} (o : Outcome A) : silent (await o).
Proof. reflexivity. Qed.

Lemma silent_bind {A B} (m : Promise A) (k : A -> Promise B) :
  silent m -> (forall a, silent (k a)) -> silent (bind m k).
Proof.
  unfold silent, logs. destruct m as [l [a | e]]; cbn; intros Hm Hk.
  - specialize (Hk a). destruct (k a) as [l' r]. cbn in *. now subst.
  - exact Hm.
Qed.

Lemma silent_array_map {A B} (f : A -> Promise B) (xs : list A) :
  (forall x, silent (f x)) -> silent (array_map f xs).
Proof.
  intros Hf. induction xs as [| x xs IH]; cbn [array_map].
  - apply silent_resolve.
  - apply silent_bind; [apply Hf |]. intros y.
    apply silent_bind; [exact IH |]. intros ys. apply silent_resolve.
Qed.

Lemma silent_chaindata_api_query {A} (c : ChainData)
    (call : Query -> Outcome (option A)) :
  silent (chaindata_api_query c call).
Proof.
  unfold chaindata_api_query. destruct (api c) as [a |].
  - apply silent_bind; [apply silent_await |]. intros q. apply silent_await.
  - apply silent_resolve.
Qed.

Lemma silent_apiAt_optional_query {A} (apiAt : option Api)
    (call : Query -> Outcome (option A)) :
  silent (apiAt_optional_query apiAt call).
Proof.
  unfold apiAt_optional_query. destruct apiAt as [a |]; [| reflexivity].
  destruct (query a); reflexivity.
Qed.

Lemma silent_apiAt_query {A} (apiAt : option Api)
    (call : Query -> Outcome (option A)) :
  silent (apiAt_query apiAt call).
Proof.
  unfold apiAt_query. destruct apiAt as [a |].
  - apply silent_bind; [apply silent_await |]. intros q. apply silent_await.
  - apply silent_throw.
Qed.

Lemma silent_method {A B} (o : option A) (m : A -> Outcome B) :
  silent (method o m).
Proof. destruct o; reflexivity. Qed.

Lemma silent_optional_method {A B} (o : option A) (m : A -> Outcome B) :
  silent (optional_method o m).
Proof.
  destruct o as [a |]; [| reflexivity]. cbn [optional_method].
  apply silent_bind; [apply silent_await |]. intros b. apply silent_resolve.
Qed.

Ltac silence :=
  repeat first
    [ apply silent_resolve
    | apply silent_throw
    | apply silent_await
    | apply silent_chaindata_api_query
    | apply silent_apiAt_optional_query
    | apply silent_apiAt_query
    | apply silent_method
    | apply silent_optional_method
    | apply silent_array_map; intros
    | apply silent_bind; [| intros]
    | match goal with
      | |- silent (match ?x with _ => _ end) => destruct x
      end ].

(** ** The catch-all handler *)

Lemma absorbs_try_catch {A} (body : Promise A) (prefix : string)
    (sentinel : Exn -> A) :
  silent body ->
  absorbs
    (try_catch body
       (fun e =>
          bind (logger_error (prefix ++ exn_toString e) chaindataLabel)
            (fun _ => resolve (sentinel e))))
    prefix sentinel.
Proof.
  unfold silent, logs. destruct body as [l [a | e]]; cbn; intros Hl; subst l.
  - left. split; [reflexivity |]. now exists a.
  - right. exists e. split; reflexivity.
Qed.

Lemma absorbs_bind_resolve {A B} (p : Promise A) (prefix : string)
    (sentinel : Exn -> A) (k : A -> Promise B) (g : A -> B) :
  absorbs p prefix sentinel ->
  (forall a, k a = resolve (g a)) ->
  absorbs (bind p k) prefix (fun e => g (sentinel e)).
Proof.
  unfold absorbs, logs, outcome. destruct p as [l o]. cbn [fst snd].
  intros [[Hl [a Ha]] | [e [Hl Ho]]] Hk; subst.
  - left. cbn. rewrite Hk. cbn. split; [reflexivity |]. now eexists.
  - right. exists e. cbn. rewrite Hk. cbn. split; reflexivity.
Qed.

(** A query that absorbs its failures returns. *)
Lemma absorbs_returns {A} (p : Promise A) (prefix : string)
    (sentinel : Exn -> A) :
  absorbs p prefix sentinel -> exists a, outcome p = Returns a.
Proof.
  intros [[_ H] | [e [_ H]]]; [exact H | eexists; exact H].
Qed.

(** When the body of a [try] throws, the handler decides the result. *)
Lemma try_catch_throws {A} (body : Promise A) (handler : Exn -> Promise A)
    (e : Exn) :
  outcome body = Throws e ->
  outcome (try_catch body handler) = outcome (handler e).
Proof.
  unfold outcome. destruct body as [l [a | e']]; cbn; intros H.
  - discriminate H.
  - injection H as ->. now destruct (handler e).
Qed.

(** ** The claims on the queries *)

(** Every exported query returns, and when it has logged, it has logged
    one caught exception and returned its sentinel: [[0, reason]] for the
    number results, [false], [null] or the empty list for the others. *)
Theorem queries_absorb_failures (c : ChainData) (apiAt : option Api)
    (eraIndex : Z) (s : string) :
  absorbs (getCommission c s) "Error getting commission: "
    (fun e => (0, Some (JSON_stringify e)))
  /\ absorbs (getCommissionInEra c apiAt eraIndex s)
       "Error getting commission in era: " (fun _ => Null)
  /\ absorbs (getBlocked c s) "Error getting blocked: " (fun _ => false)
  /\ absorbs (getBondedAmount c s) "Error getting bonded amount: "
       (fun e => (0, Some (JSON_stringify e)))
  /\ absorbs (getControllerFromStash c s)
       "Error getting controller from stash: " (fun _ => None)
  /\ absorbs (getRewardDestination c s) "Error getting reward destination: "
       (fun _ => None)
  /\ absorbs (getRewardDestinationAt c apiAt s)
       "Error getting reward destination: " (fun _ => None)
  /\ absorbs (getQueuedKeys c) "Error getting queued keys: " (fun _ => [])
  /\ absorbs (getNextKeys c s) "Error getting next keys: " (fun _ => None)
  /\ absorbs (getBalance c s) "Error getting balance: " (fun _ => None)
  /\ absorbs (getExposure c eraIndex s) "Error getting exposure: "
       (fun _ => None)
  /\ absorbs (getExposureAt c apiAt eraIndex s) "Error getting exposure: "
       (fun _ => None).
Proof.
  repeat split.
  - unfold getCommission. apply absorbs_try_catch. silence.
  - unfold getCommissionInEra. apply absorbs_try_catch. silence.
  - unfold getBlocked. apply absorbs_try_catch. silence.
  - unfold getBondedAmount. apply absorbs_try_catch. silence.
  - unfold getControllerFromStash. apply absorbs_try_catch. silence.
  - unfold getRewardDestination, rewardDestination_account_or_string.
    apply absorbs_try_catch. silence.
  - unfold getRewardDestinationAt, rewardDestination_account_or_string.
    apply absorbs_try_catch. silence.
  - unfold getQueuedKeys. apply absorbs_try_catch. silence.
  - unfold getNextKeys.
    apply (absorbs_bind_resolve _ _ (fun _ => None) _
             (fun returned => match returned with
                              | Some r => r
                              | None => None
                              end)).
    + apply absorbs_try_catch. silence.
    + now intros [r |].
  - unfold getBalance. apply absorbs_try_catch. silence.
  - unfold getExposure. apply absorbs_try_catch. silence.
  - unfold getExposureAt. apply absorbs_try_catch. silence.
Qed.

Lemma silent_eq {A} (p : Promise A) : silent p -> p = ([], outcome p).
Proof. unfold silent, logs, outcome. destruct p; cbn. now intros ->. Qed.

Lemma chaindata_api_query_eq {A} (c : ChainData)
    (call : Query -> Outcome (option A)) (o : Outcome (option A)) :
  outcome (chaindata_api_query c call) = o ->
  chaindata_api_query c call = ([], o).
Proof.
  intros <-. apply silent_eq, silent_chaindata_api_query.
Qed.

(** A failed connection check is absorbed by every query. *)
Lemma connection_failure_is_absorbed (c : ChainData) (apiAt : option Api)
    (eraIndex : Z) (s : string) (e : Exn) :
  checkApiConnection c = Throws e ->
  outcome (getCommission c s) = Returns (0, Some (JSON_stringify e))
  /\ outcome (getCommissionInEra c apiAt eraIndex s) = Returns Null
  /\ outcome (getBlocked c s) = Returns false
  /\ outcome (getBondedAmount c s) = Returns (0, Some (JSON_stringify e))
  /\ outcome (getControllerFromStash c s) = Returns None
  /\ outcome (getRewardDestination c s) = Returns None
  /\ outcome (getRewardDestinationAt c apiAt s) = Returns None
  /\ outcome (getQueuedKeys c) = Returns []
  /\ outcome (getNextKeys c s) = Returns None
  /\ outcome (getBalance c s) = Returns None
  /\ outcome (getExposure c eraIndex s) = Returns None
  /\ outcome (getExposureAt c apiAt eraIndex s) = Returns None.
Proof.
  intros H.
  unfold getCommission, getCommissionInEra, getBlocked, getBondedAmount,
    getControllerFromStash, getRewardDestination, getRewardDestinationAt,
    getQueuedKeys, getNextKeys, getBalance, getExposure, getExposureAt.
  rewrite H. repeat split.
Qed.

(** An API call that rejects is absorbed: the commission query as an
    instance. *)
Lemma rejected_call_is_absorbed (c : ChainData) (q : Query) (s : string)
    (e : Exn) :
  checkApiConnection c = Returns tt ->
  api c = Some (mkApi (Some q)) ->
  staking_validators q s = Throws e ->
  getCommission c s
  = ([mkLog Error ("Error getting commission: " ++ exn_toString e)
        chaindataLabel],
     Returns (0, Some (JSON_stringify e))).
Proof.
  intros Hc Ha Hq. unfold getCommission, chaindata_api_query.
  rewrite Hc, Ha. cbn. now rewrite Hq.
Qed.

(** C9. When a query finds no data its result carries a reason next to
    the default 0, and a successful read carries [null] instead.  With a
    working connection: [getBondedAmount] returns
    [[0, "Not bonded to any account."]] when the bonded account is absent
    or none, [[0, "Ledger is empty."]] when the ledger is absent or none,
    and [[active, null]] when the ledger is read; [getCommission] returns
    [[0, "No preferences found."]] when there are no preferences and
    [[commission, null]] when they are read. *)
Theorem no_data_carries_a_reason (c : ChainData) (stash : string) :
  checkApiConnection c = Returns tt ->
  (outcome (chaindata_api_query c (fun q => staking_bonded q stash))
   = Returns None ->
   getBondedAmount c stash = ([], Returns (0, Some "Not bonded to any account.")))
  /\ (forall b,
        outcome (chaindata_api_query c (fun q => staking_bonded q stash))
        = Returns (Some b) ->
        bonded_isNone b = true ->
        getBondedAmount c stash
        = ([], Returns (0, Some "Not bonded to any account.")))
  /\ (forall b controller,
        outcome (chaindata_api_query c (fun q => staking_bonded q stash))
        = Returns (Some b) ->
        bonded_isNone b = false ->
        bonded_toString b = Returns controller ->
        (outcome (chaindata_api_query c (fun q => staking_ledger q controller))
         = Returns None ->
         getBondedAmount c stash = ([], Returns (0, Some "Ledger is empty.")))
        /\ (forall l,
              outcome
                (chaindata_api_query c (fun q => staking_ledger q controller))
              = Returns (Some l) ->
              ledger_isNone l = true ->
              getBondedAmount c stash
              = ([], Returns (0, Some "Ledger is empty.")))
        /\ (forall l json,
              outcome
                (chaindata_api_query c (fun q => staking_ledger q controller))
              = Returns (Some l) ->
              ledger_isNone l = false ->
              ledger_toJSON l = Returns (Some json) ->
              getBondedAmount c stash = ([], Returns (active json, None))))
  /\ (outcome (chaindata_api_query c (fun q => staking_validators q stash))
      = Returns None ->
      getCommission c stash = ([], Returns (0, Some "No preferences found.")))
  /\ (forall prefs rate n,
        outcome (chaindata_api_query c (fun q => staking_validators q stash))
        = Returns (Some prefs) ->
        commission prefs = Some rate ->
        toNumber rate = Returns n ->
        getCommission c stash = ([], Returns (n, None))).
Proof.
  intros Hc. split; [| split; [| split; [| split]]].
  - intros Hb. apply chaindata_api_query_eq in Hb.
    unfold getBondedAmount. rewrite Hc. cbn. now rewrite Hb.
  - intros b Hb Hnone. apply chaindata_api_query_eq in Hb.
    unfold getBondedAmount. rewrite Hc. cbn. rewrite Hb. cbn.
    now rewrite Hnone.
  - intros b controller Hb Hsome Hs. apply chaindata_api_query_eq in Hb.
    split; [| split].
    + intros Hl. apply chaindata_api_query_eq in Hl.
      unfold getBondedAmount. rewrite Hc. cbn. rewrite Hb. cbn.
      rewrite Hsome, Hs. cbn. now rewrite Hl.
    + intros l Hl Hnone. apply chaindata_api_query_eq in Hl.
      unfold getBondedAmount. rewrite Hc. cbn. rewrite Hb. cbn.
      rewrite Hsome, Hs. cbn. rewrite Hl. cbn. now rewrite Hnone.
    + intros l json Hl Hfull Hj. apply chaindata_api_query_eq in Hl.
      unfold getBondedAmount. rewrite Hc. cbn. rewrite Hb. cbn.
      rewrite Hsome, Hs. cbn. rewrite Hl. cbn. rewrite Hfull, Hj.
      reflexivity.
  - intros Hp. apply chaindata_api_query_eq in Hp.
    unfold getCommission. rewrite Hc. cbn. now rewrite Hp.
  - intros prefs rate n Hp Hr Hn. apply chaindata_api_query_eq in Hp.
    unfold getCommission. rewrite Hc. cbn. rewrite Hp. cbn.
    rewrite Hr. cbn. now rewrite Hn.
Qed.

Lemma no_data_carries_a_reason_witness :
  getBondedAmount bondedChain "stash-1" = ([], Returns (5000, None)).
Proof.
  destruct (no_data_carries_a_reason bondedChain "stash-1" eq_refl)
    as (_ & _ & Hbonded & _).
  destruct (Hbonded sampleBonded "controller-1" eq_refl eq_refl eq_refl)
    as (_ & _ & Hledger).
  exact (Hledger sampleLedger (mkLedgerJson 5000) eq_refl eq_refl eq_refl).
Defined.

(** C10. [getBlocked] never throws and answers [false] on every failure
    path: when the connection check or the API call throws, and when the
    preferences are absent.  It answers [true] only when the connection
    works and the fetched preferences have a [blocked] field whose string
    form is ["true"].  A failed query and a validator that is not blocked
    give the same answer. *)
Theorem getBlocked_false_on_failure (c : ChainData) (validator : string) :
  (exists b, outcome (getBlocked c validator) = Returns b)
  /\ (forall e,
        checkApiConnection c = Throws e ->
        outcome (getBlocked c validator) = Returns false)
  /\ (forall e,
        outcome
          (chaindata_api_query c (fun q => staking_validators q validator))
        = Throws e ->
        outcome (getBlocked c validator) = Returns false)
  /\ (outcome
        (chaindata_api_query c (fun q => staking_validators q validator))
      = Returns None ->
      outcome (getBlocked c validator) = Returns false)
  /\ (outcome (getBlocked c validator) = Returns true
      <-> checkApiConnection c = Returns tt
          /\ exists prefs flag,
               outcome
                 (chaindata_api_query c
                    (fun q => staking_validators q validator))
               = Returns (Some prefs)
               /\ blocked prefs = Some flag
               /\ bool_toString flag = Returns "true")
  /\ outcome (getBlocked disconnectedChain validator)
     = outcome
         (getBlocked
            (connectedChain (sampleQuery (Some (samplePrefs "false")) None None))
            validator).
Proof.
  split.
  { eapply absorbs_returns. unfold getBlocked.
    apply absorbs_try_catch. silence. }
  split.
  { intros e He. unfold getBlocked. now rewrite He. }
  split.
  { intros e Hq. apply chaindata_api_query_eq in Hq. unfold getBlocked.
    destruct (checkApiConnection c) as [[] | e0]; cbn; [| reflexivity].
    now rewrite Hq. }
  split.
  { intros Hq. apply chaindata_api_query_eq in Hq. unfold getBlocked.
    destruct (checkApiConnection c) as [[] | e0]; cbn; [| reflexivity].
    now rewrite Hq. }
  split; [| reflexivity].
  unfold getBlocked.
  destruct (checkApiConnection c) as [[] | e0] eqn:Hc; cbn.
  2:{ split; [intros H | intros [H _]]; discriminate H. }
  destruct (outcome
              (chaindata_api_query c (fun q => staking_validators q validator)))
    as [[prefs |] | e1] eqn:Hq;
    apply chaindata_api_query_eq in Hq; rewrite Hq; cbn.
  - destruct (blocked prefs) as [flag |] eqn:Hb; cbn.
    + destruct (bool_toString flag) as [str | e2] eqn:Hs; cbn.
      * split.
        -- intros H. injection H as H. apply String.eqb_eq in H. subst str.
           split; [reflexivity |]. exists prefs, flag. auto.
        -- intros (_ & prefs' & flag' & Hp & Hb' & Hs').
           injection Hp as <-. rewrite Hb in Hb'. injection Hb' as <-.
           rewrite Hs in Hs'. injection Hs' as ->. reflexivity.
      * split.
        -- intros H. discriminate H.
        -- intros (_ & prefs' & flag' & Hp & Hb' & Hs').
           injection Hp as <-. rewrite Hb in Hb'. injection Hb' as <-.
           rewrite Hs in Hs'. discriminate Hs'.
    + split.
      * intros H. discriminate H.
      * intros (_ & prefs' & flag' & Hp & Hb' & _).
        injection Hp as <-. rewrite Hb in Hb'. discriminate Hb'.
  - split.
    + intros H. discriminate H.
    + intros (_ & prefs' & flag' & Hp & _). discriminate Hp.
  - split.
    + intros H. discriminate H.
    + intros (_ & prefs' & flag' & Hp & _). discriminate Hp.
Qed.

(** Sample runs of the queries. *)

Example decimal_one : decimal 1 = "1".
Proof. reflexivity. Qed.

Example getBlocked_blocked :
  getBlocked (connectedChain (sampleQuery (Some (samplePrefs "true")) None None))
    "validator-1"
  = ([], Returns true).
Proof. reflexivity. Qed.

Example getBlocked_disconnected :
  getBlocked disconnectedChain "validator-1"
  = ([mkLog Error "Error getting blocked: Error: disconnected" chaindataLabel],
     Returns false).
Proof. reflexivity. Qed.

Example getCommission_disconnected :
  getCommission disconnectedChain "validator-1"
  = ([mkLog Error "Error getting commission: Error: disconnected"
        chaindataLabel],
     Returns (0, Some "{}")).
Proof. reflexivity. Qed.

Example getCommission_read :
  getCommission bondedChain "validator-1" = ([], Returns (50000000, None)).
Proof. reflexivity. Qed.

Example getBondedAmount_not_bonded :
  getBondedAmount (connectedChain (sampleQuery None None None)) "stash-1"
  = ([], Returns (0, Some "Not bonded to any account.")).
Proof. reflexivity. Qed.

Example getBondedAmount_empty_ledger :
  getBondedAmount
    (connectedChain (sampleQuery None (Some sampleBonded) None)) "stash-1"
  = ([], Returns (0, Some "Ledger is empty.")).
Proof. reflexivity. Qed.

(** Without an [api] the payee is [undefined], and reading it throws inside
    the [try]: the failure is logged and the answer is [null]. *)
Example getRewardDestination_without_api :
  outcome (getRewardDestination (sampleChainData (100, None)) "stash-1")
  = Returns None
  /\ List.length
       (logs (getRewardDestination (sampleChainData (100, None)) "stash-1"))
     = 1%nat.
Proof. split; reflexivity. Qed.

(** * Further properties of the query layer *)

(** ** Case analysis of a query *)

Ltac query_unfold :=
  unfold try_catch, bind, await, resolve, throw, logger_error, method,
    optional_method, chaindata_api_query, apiAt_optional_query, apiAt_query,
    api_query, outcome, logs in *.

Ltac query_step :=
  match goal with
  | |- context [match ?x with Returns _ => _ | Throws _ => _ end] =>
      destruct x eqn:?
  | |- context [match ?x with Some _ => _ | None => _ end] =>
      destruct x eqn:?
  | |- context [if ?b then _ else _] => destruct b eqn:?
  end.

Ltac query_cases :=
  repeat (first [progress query_unfold | query_step]; cbn [fst snd app]).

(** ** [xs.map(f)] with a callback that may throw *)

Lemma array_map_returns {A B} (f : A -> Promise B) (xs : list A)
    (ys : list B) :
  outcome (array_map f xs) = Returns ys ->
  Forall2 (fun x y => outcome (f x) = Returns y) xs ys.
Proof.
  revert ys. induction xs as [| x xs IH]; intros ys; cbn [array_map].
  - cbn. intros H. injection H as <-. constructor.
  - unfold bind, outcome in *.
    destruct (f x) as [l [y | e]] eqn:Hx; cbn; [| discriminate].
    destruct (array_map f xs) as [l' [ys' | e']]; cbn; [| discriminate].
    intros H. injection H as <-. constructor; [now rewrite Hx |].
    now apply IH.
Qed.

Lemma array_map_all {A B} (f : A -> Promise B) (xs : list A) (ys : list B) :
  Forall2 (fun x y => outcome (f x) = Returns y) xs ys ->
  outcome (array_map f xs) = Returns ys.
Proof.
  induction 1 as [| x y xs ys Hx _ IH]; cbn [array_map]; [reflexivity |].
  unfold bind, outcome in *.
  destruct (f x) as [l o]. cbn in Hx. subst o.
  destruct (array_map f xs) as [l' o']. cbn in IH. subst o'. reflexivity.
Qed.

Lemma array_map_throws {A B} (f : A -> Promise B) (xs : list A) :
  Exists (fun x => exists e, outcome (f x) = Throws e) xs ->
  (forall x, exists o, f x = ([], o)) ->
  exists e, array_map f xs = ([], Throws e).
Proof.
  intros Hex Hsilent. induction Hex as [x xs [e He] | x xs _ IH];
    cbn [array_map]; unfold bind, outcome in *.
  - destruct (Hsilent x) as [o Ho]. rewrite Ho in *. cbn in He. subst o.
    now exists e.
  - destruct (Hsilent x) as [[y | e] Ho]; rewrite Ho; [| now exists e].
    destruct IH as [e IH]. rewrite IH. now exists e.
Qed.

(** X1. A number result that carries a reason always carries the default
    0, and one that carries no reason was obtained without any failure:
    nothing was logged. *)
Theorem reason_means_default (c : ChainData) (s : string) :
  (forall n r, outcome (getCommission c s) = Returns (n, Some r) -> n = 0)
  /\ (forall n,
        outcome (getCommission c s) = Returns (n, None) ->
        logs (getCommission c s) = [])
  /\ (forall n r, outcome (getBondedAmount c s) = Returns (n, Some r) -> n = 0)
  /\ (forall n,
        outcome (getBondedAmount c s) = Returns (n, None) ->
        logs (getBondedAmount c s) = []).
Proof.
  repeat split; intros *; unfold getCommission, getBondedAmount;
    query_cases; intros H; try discriminate H; try reflexivity;
    now injection H.
Qed.

(** X2. [getCommissionInEra] answers [null] exactly when it caught a
    failure (and logged it).  Missing data (no [apiAt], no [query], no
    preferences, no commission) gives [undefined] instead, silently, and
    [undefined] is returned in no other case; a number is returned only as
    the commission of the preferences read from [apiAt]. *)
Theorem commission_in_era_null_is_failure (c : ChainData)
    (apiAt : option Api) (eraIndex : Z) (validator : string) :
  (outcome (getCommissionInEra c apiAt eraIndex validator) = Returns Null
   <-> logs (getCommissionInEra c apiAt eraIndex validator) <> [])
  /\ (outcome (getCommissionInEra c apiAt eraIndex validator)
      = Returns Undefined ->
      checkApiConnection c = Returns tt
      /\ logs (getCommissionInEra c apiAt eraIndex validator) = []
      /\ commissionDataMissing apiAt eraIndex validator)
  /\ (forall n,
        outcome (getCommissionInEra c apiAt eraIndex validator)
        = Returns (Value n) ->
        exists a q prefs rate,
          apiAt = Some a /\ query a = Some q
          /\ staking_erasValidatorPrefs q eraIndex validator
             = Returns (Some prefs)
          /\ commission prefs = Some rate
          /\ toNumber rate = Returns n)
  /\ (checkApiConnection c = Returns tt ->
      commissionDataMissing apiAt eraIndex validator ->
      getCommissionInEra c apiAt eraIndex validator = ([], Returns Undefined)).
Proof.
  split; [| split; [| split]].
  - unfold getCommissionInEra. query_cases; split; intros H;
      first [discriminate H | reflexivity | now elim H | discriminate].
  - unfold getCommissionInEra, commissionDataMissing.
    query_cases; intros H;
      try discriminate H; match goal with u : unit |- _ => destruct u end;
      (split; [reflexivity |]); (split; [reflexivity |]).
    + right. right. right. do 3 eexists. repeat split; eassumption.
    + right. right. left. do 2 eexists. repeat split; eassumption.
    + right. left. eexists. split; [reflexivity | assumption].
    + now left.
  - intros n. unfold getCommissionInEra.
    query_cases; intros H; try discriminate H.
    injection H as <-. repeat eexists; eauto.
  - intros Hc Hmiss. unfold getCommissionInEra. rewrite Hc.
    destruct Hmiss as [-> | [(a & -> & Hq) | [(a & q & -> & Hq & Hp)
      | (a & q & prefs & -> & Hq & Hp & Hr)]]];
      cbn; rewrite ?Hq; cbn; rewrite ?Hp; cbn; rewrite ?Hr; reflexivity.
Qed.

(** X3. [getControllerFromStash] does not look at [isNone]: for a bonded
    option that is none it returns the option's string form, where
    [getBondedAmount] reports that the stash is not bonded. *)
Theorem controller_ignores_isNone (c : ChainData) (stash s : string)
    (b : OptionAccountId) :
  checkApiConnection c = Returns tt ->
  outcome (chaindata_api_query c (fun q => staking_bonded q stash))
  = Returns (Some b) ->
  bonded_isNone b = true ->
  bonded_toString b = Returns s ->
  getControllerFromStash c stash = ([], Returns (Some s))
  /\ getBondedAmount c stash
     = ([], Returns (0, Some "Not bonded to any account.")).
Proof.
  intros Hc Hb Hnone Hs. apply chaindata_api_query_eq in Hb.
  unfold getControllerFromStash, getBondedAmount. rewrite Hc. cbn.
  rewrite Hb. cbn. now rewrite Hnone, Hs.
Qed.

Lemma controller_ignores_isNone_witness :
  getControllerFromStash
    (connectedChain (sampleQuery None (Some noneBonded) None)) "stash-1"
  = ([], Returns (Some "")).
Proof.
  exact (proj1
           (controller_ignores_isNone
              (connectedChain (sampleQuery None (Some noneBonded) None))
              "stash-1" "" noneBonded eq_refl eq_refl eq_refl eq_refl)).
Defined.

(** X4. The two readers of [staking.bonded] agree where it matters: when
    [getBondedAmount] returns an amount without a reason,
    [getControllerFromStash] returns a controller; and when
    [getControllerFromStash] silently returns [null], [getBondedAmount]
    reports that the stash is not bonded. *)
Theorem bonded_amount_has_controller (c : ChainData) (stash : string) :
  (forall amount,
     outcome (getBondedAmount c stash) = Returns (amount, None) ->
     exists controller,
       getControllerFromStash c stash = ([], Returns (Some controller)))
  /\ (getControllerFromStash c stash = ([], Returns None) ->
      getBondedAmount c stash
      = ([], Returns (0, Some "Not bonded to any account."))).
Proof.
  split.
  - intros amount. unfold getBondedAmount, getControllerFromStash.
    query_cases; intros H; try discriminate H; eexists; reflexivity.
  - unfold getBondedAmount, getControllerFromStash.
    query_cases; intros H; try discriminate H; reflexivity.
Qed.

(** X5. Asked at the handle's own [api], [getRewardDestinationAt] returns
    what [getRewardDestination] returns. *)
Theorem reward_destination_at_own_api (c : ChainData) (stash : string) :
  outcome (getRewardDestinationAt c (api c) stash)
  = outcome (getRewardDestination c stash).
Proof.
  unfold getRewardDestinationAt, getRewardDestination,
    rewardDestination_account_or_string.
  query_cases; reflexivity.
Qed.

(** X6. [getRewardDestination] returns the account of the payee when its
    JSON form carries a non-empty one, and otherwise (a plain variant, or
    an object without account or with an empty one) the payee's string
    form; a payee whose JSON form is [null] is a caught failure. *)
Theorem reward_destination_account_or_string (c : ChainData) (stash : string)
    (payee : RewardDestination) :
  checkApiConnection c = Returns tt ->
  outcome (chaindata_api_query c (fun q => staking_payee q stash))
  = Returns (Some payee) ->
  (forall a,
     payee_toJSON payee = Returns (PayeeObject (Some a)) ->
     a <> "" ->
     getRewardDestination c stash = ([], Returns (Some a)))
  /\ (forall json s,
        payee_toJSON payee = Returns json ->
        (exists v, json = PayeeVariant v) \/ json = PayeeObject None
        \/ json = PayeeObject (Some "") ->
        payee_toString payee = Returns s ->
        getRewardDestination c stash = ([], Returns (Some s)))
  /\ (payee_toJSON payee = Returns PayeeNull ->
      outcome (getRewardDestination c stash) = Returns None
      /\ logs (getRewardDestination c stash) <> []).
Proof.
  intros Hc Hp. apply chaindata_api_query_eq in Hp.
  unfold getRewardDestination, rewardDestination_account_or_string.
  rewrite Hc. cbn. rewrite Hp. cbn. split; [| split].
  - intros a Hj Ha. rewrite Hj. cbn. unfold truthy_string.
    apply String.eqb_neq in Ha. now rewrite Ha.
  - intros json s Hj Hcase Hs. rewrite Hj.
    destruct Hcase as [[v ->] | [-> | ->]]; cbn; now rewrite Hs.
  - intros Hj. rewrite Hj. cbn. split; [reflexivity | discriminate].
Qed.

Lemma reward_destination_account_or_string_witness :
  getRewardDestination
    (connectedChain (sessionQuery (Some accountPayee) None None)) "stash-1"
  = ([], Returns (Some "payee-1")).
Proof.
  refine (proj1
            (reward_destination_account_or_string
               (connectedChain (sessionQuery (Some accountPayee) None None))
               "stash-1" accountPayee eq_refl eq_refl)
            "payee-1" eq_refl _).
  discriminate.
Defined.

Lemma queuedKey_conversion (entry : AccountId * SessionKeys) :
  exists o,
    (let '(validator, keys) := entry in
     bind (await (account_toString validator))
       (fun a => bind (await (toHex keys))
                   (fun h => resolve (QueuedKey.mk a h))))
    = ([], o)
    /\ (forall r, o = Returns r <-> queuedKeyOf entry r)
    /\ ((exists e, o = Throws e) <-> queuedKeyThrows entry).
Proof.
  destruct entry as [validator keys]. unfold queuedKeyOf, queuedKeyThrows.
  cbn [fst snd]. query_unfold.
  destruct (account_toString validator) as [a | e1];
    destruct (toHex keys) as [h | e2]; cbn; eexists;
    (split; [reflexivity |]); split.
  - intros [a' h']; cbn. split.
    + intros H. injection H as <- <-. now split.
    + intros [H1 H2]. injection H1 as <-. injection H2 as <-. reflexivity.
  - split; [intros [e H]; discriminate H |].
    intros [[e H] | [e H]]; discriminate H.
  - intros r. split; [intros H; discriminate H | intros [_ H]; discriminate H].
  - split; [intros _; right; now exists e2 | intros _; now exists e2].
  - intros r. split; [intros H; discriminate H | intros [H _]; discriminate H].
  - split; [intros _; left; now exists e1 | intros _; now exists e1].
  - intros r. split; [intros H; discriminate H | intros [H _]; discriminate H].
  - split; [intros _; left; now exists e1 | intros _; now exists e1].
Qed.

Lemma bind_returns {A B} (m : Promise A) (a : A) (k : A -> Promise B) :
  m = ([], Returns a) -> bind m k = k a.
Proof. intros ->. unfold bind. now destruct (k a). Qed.

Lemma bind_resolve_r {A} (m : Promise A) : bind m (fun a => resolve a) = m.
Proof. destruct m as [l [a | e]]; cbn; [now rewrite app_nil_r | reflexivity]. Qed.

(** X7. [getQueuedKeys] is all or nothing.  When every entry of the queue
    converts, the result is the conversion of the whole queue, entry by
    entry and in order; a silent non-failing answer is always of that
    form; and when any single entry throws, the result is the empty list
    (with the failure logged), not the entries that did convert. *)
Theorem queued_keys_all_or_nothing (c : ChainData)
    (queue : list (AccountId * SessionKeys)) :
  checkApiConnection c = Returns tt ->
  outcome (chaindata_api_query c session_queuedKeys) = Returns (Some queue) ->
  (forall ks, Forall2 queuedKeyOf queue ks ->
              getQueuedKeys c = ([], Returns ks))
  /\ (forall ks,
        getQueuedKeys c = ([], Returns ks) -> Forall2 queuedKeyOf queue ks)
  /\ (Exists queuedKeyThrows queue ->
      outcome (getQueuedKeys c) = Returns []
      /\ logs (getQueuedKeys c) <> []).
Proof.
  intros Hc Hq. apply chaindata_api_query_eq in Hq.
  unfold getQueuedKeys.
  rewrite (bind_returns _ tt) by (unfold await; now rewrite Hc).
  rewrite (bind_returns _ (Some queue)) by exact Hq.
  rewrite bind_resolve_r.
  match goal with |- context [array_map ?f queue] => set (F := f) end.
  assert (HF : forall entry, exists o,
               F entry = ([], o)
               /\ (forall r, o = Returns r <-> queuedKeyOf entry r)
               /\ ((exists e, o = Throws e) <-> queuedKeyThrows entry))
    by (intros entry; apply queuedKey_conversion).
  split; [| split].
  - intros ks Hall.
    assert (Hm : outcome (array_map F queue) = Returns ks).
    { apply array_map_all. eapply Forall2_impl; [| exact Hall].
      intros entry r Hr. destruct (HF entry) as (o & -> & Ho & _).
      now apply Ho. }
    rewrite (silent_eq (array_map F queue)), Hm; [reflexivity |].
    apply silent_array_map. intros entry.
    destruct (HF entry) as (o & -> & _). reflexivity.
  - intros ks. destruct (array_map F queue) as [l [ks' | e]] eqn:Hm; cbn.
    + intros H. injection H as -> ->.
      eapply Forall2_impl; [| apply array_map_returns; now rewrite Hm].
      intros entry r Hr. cbv beta in Hr.
      destruct (HF entry) as (o & Ho & Hiff & _).
      rewrite Ho in Hr. now apply Hiff.
    + intros H. apply (f_equal fst) in H. cbn in H.
      apply app_eq_nil in H as [_ H]. discriminate H.
  - intros Hex.
    destruct (array_map_throws F queue) as [e He].
    + eapply Exists_impl; [| exact Hex]. intros entry Hthrow.
      destruct (HF entry) as (o & -> & _ & Hiff). now apply Hiff.
    + intros entry. destruct (HF entry) as (o & Ho & _). now exists o.
    + rewrite He. cbn. split; [reflexivity | discriminate].
Qed.

Lemma queued_keys_all_or_nothing_witness :
  getQueuedKeys (connectedChain (sessionQuery None (Some sampleQueue) None))
  = ([], Returns [QueuedKey.mk "validator-1" "0x01";
                  QueuedKey.mk "validator-2" "0x02"])
  /\ outcome
       (getQueuedKeys
          (connectedChain (sessionQuery None (Some brokenQueue) None)))
     = Returns [].
Proof.
  split.
  - apply (queued_keys_all_or_nothing
             (connectedChain (sessionQuery None (Some sampleQueue) None))
             sampleQueue eq_refl eq_refl).
    repeat constructor.
  - apply (queued_keys_all_or_nothing
             (connectedChain (sessionQuery None (Some brokenQueue) None))
             brokenQueue eq_refl eq_refl).
    apply Exists_cons_tl, Exists_cons_hd. right. eexists. reflexivity.
Defined.


(** X9. [getBalance] returns a balance object whenever the account query
    answers, also when the answer has no [data] or no [free]: [free] is
    then undefined inside a non-null result. *)
Theorem balance_without_free (c : ChainData) (address : string)
    (info : AccountInfo) :
  checkApiConnection c = Returns tt ->
  outcome (chaindata_api_query c (fun q => system_account q address))
  = Returns (Some info) ->
  (data info = None \/ (exists d, data info = Some d /\ free d = None) ->
   getBalance c address = ([], Returns (Some (Balance.mk None))))
  /\ (forall d f s,
        data info = Some d -> free d = Some f -> free_toString f = Returns s ->
        getBalance c address = ([], Returns (Some (Balance.mk (Some s))))).
Proof.
  intros Hc Hq. apply chaindata_api_query_eq in Hq.
  unfold getBalance.
  rewrite (bind_returns _ tt) by (unfold await; now rewrite Hc).
  rewrite (bind_returns _ (Some info)) by exact Hq.
  split.
  - intros [Hd | [d [Hd Hf]]]; rewrite Hd; [reflexivity |].
    now rewrite Hf.
  - intros d f s Hd Hf Hs. rewrite Hd, Hf. cbn. now rewrite Hs.
Qed.

Lemma balance_without_free_witness :
  getBalance (connectedChain (stakersQuery (Some (mkAccountInfo None)) None))
    "address-1"
  = ([], Returns (Some (Balance.mk None))).
Proof.
  apply (balance_without_free
           (connectedChain (stakersQuery (Some (mkAccountInfo None)) None))
           "address-1" (mkAccountInfo None) eq_refl eq_refl).
  now left.
Defined.

Lemma stake_conversion (denom : Z) (stake : IndividualExposure) :
  exists o,
    bind (await (who_toString stake))
      (fun w => bind (await (value_toString stake))
                  (fun v => resolve (Stake.mk w (parseFloat_div v denom))))
    = ([], o)
    /\ (forall r, o = Returns r <-> stakeOf denom stake r).
Proof.
  unfold stakeOf. query_unfold.
  destruct (who_toString stake) as [w | e1];
    destruct (value_toString stake) as [v | e2]; cbn; eexists;
    (split; [reflexivity |]); intros [w' b']; cbn; split;
    try (intros H; discriminate H).
  - intros H. injection H as <- <-. split; [reflexivity |]. now exists v.
  - intros [H1 [v' [H2 ->]]]. injection H1 as <-. injection H2 as <-.
    reflexivity.
  - intros [_ [v' [H _]]]. discriminate H.
  - intros [H _]. discriminate H.
  - intros [H _]. discriminate H.
Qed.

(** X10. [getExposure] does not divide by a zero denomination: with
    stakers at hand and [denom = 0] it returns [null] silently.  With a
    non-zero denomination and stakers that all convert, it returns the
    total, the own stake and every nominator's stake, in order, each as a
    quotient by that denomination. *)
Theorem exposure_guards_denom (c : ChainData) (eraIndex : Z)
    (validator : string) (denom : Z) (stakers : ExposureCodec) :
  checkApiConnection c = Returns tt ->
  getDenom c = Returns denom ->
  outcome
    (chaindata_api_query c (fun q => staking_erasStakers q eraIndex validator))
  = Returns (Some stakers) ->
  (denom = 0 -> getExposure c eraIndex validator = ([], Returns None))
  /\ (denom <> 0 ->
      forall t o rs,
        total_toString stakers = Returns t ->
        own_toString stakers = Returns o ->
        Forall2 (stakeOf denom) (others stakers) rs ->
        getExposure c eraIndex validator
        = ([], Returns (Some (Exposure.mk (parseFloat_div t denom)
                                (parseFloat_div o denom) rs)))).
Proof.
  intros Hc Hd Hq. apply chaindata_api_query_eq in Hq.
  unfold getExposure.
  rewrite (bind_returns _ tt) by (unfold await; now rewrite Hc).
  rewrite (bind_returns _ denom) by (unfold await; now rewrite Hd).
  rewrite (bind_returns _ (Some stakers)) by exact Hq.
  split.
  - intros ->. reflexivity.
  - intros Hnz t o rs Ht Ho Hall.
    apply Z.eqb_neq in Hnz. rewrite Hnz. cbn [negb].
    rewrite (bind_returns _ t) by (unfold await; now rewrite Ht).
    rewrite (bind_returns _ o) by (unfold await; now rewrite Ho).
    match goal with
    | |- context [array_map ?f (others stakers)] => set (F := f)
    end.
    assert (Hm : array_map F (others stakers) = ([], Returns rs)).
    { rewrite (silent_eq (array_map F (others stakers))).
      - f_equal. apply array_map_all.
        eapply Forall2_impl; [| exact Hall].
        intros stake r Hr. cbv beta.
        destruct (stake_conversion denom stake) as (out & Hout & Hiff).
        unfold F. rewrite Hout. now apply Hiff.
      - apply silent_array_map. intros stake.
        destruct (stake_conversion denom stake) as (out & Hout & _).
        unfold F. now rewrite Hout. }
    rewrite (bind_returns _ rs) by exact Hm. reflexivity.
Qed.

Lemma exposure_guards_denom_witness :
  getExposure (chainWithDenom (stakersQuery None (Some sampleStakers)) 0)
    100 "validator-1"
  = ([], Returns None)
  /\ getExposure (chainWithDenom (stakersQuery None (Some sampleStakers)) 10)
       100 "validator-1"
     = ([], Returns
              (Some (Exposure.mk (parseFloat_div "3000" 10)
                       (parseFloat_div "1000" 10)
                       [Stake.mk "nominator-1" (parseFloat_div "1500" 10);
                        Stake.mk "nominator-2" (parseFloat_div "500" 10)]))).
Proof.
  split.
  - now apply (exposure_guards_denom
                 (chainWithDenom (stakersQuery None (Some sampleStakers)) 0)
                 100 "validator-1" 0 sampleStakers eq_refl eq_refl eq_refl).
  - apply (exposure_guards_denom
             (chainWithDenom (stakersQuery None (Some sampleStakers)) 10)
             100 "validator-1" 10 sampleStakers eq_refl eq_refl eq_refl);
      try reflexivity; [discriminate |].
    repeat constructor; eexists; split; reflexivity.
Defined.

(** X11. The historic queries treat a missing [apiAt] differently:
    [getCommissionInEra] chains optionally and returns [undefined]
    without logging, while [getRewardDestinationAt] and [getExposureAt]
    dereference it, so that they log a caught failure and return
    [null]. *)
Theorem missing_apiAt (c : ChainData) (eraIndex : Z) (s : string) :
  checkApiConnection c = Returns tt ->
  getCommissionInEra c None eraIndex s = ([], Returns Undefined)
  /\ outcome (getRewardDestinationAt c None s) = Returns None
  /\ logs (getRewardDestinationAt c None s) <> []
  /\ outcome (getExposureAt c None eraIndex s) = Returns None
  /\ logs (getExposureAt c None eraIndex s) <> [].
Proof.
  intros Hc.
  unfold getCommissionInEra, getRewardDestinationAt, getExposureAt.
  rewrite Hc. cbn. repeat split; try discriminate;
    destruct (getDenom c); cbn; try reflexivity; discriminate.
Qed.

Lemma missing_apiAt_witness :
  getCommissionInEra bondedChain None 100 "validator-1"
  = ([], Returns Undefined).
Proof.
  exact (proj1 (missing_apiAt bondedChain 100 "validator-1" eq_refl)).
Defined.

(** * Further properties of the scheduler *)

Lemma reads_app (t1 t2 : list Event) :
  reads (t1 ++ t2) = (reads t1 ++ reads t2)%list.
Proof. apply filter_app. Qed.

Lemma logged_app (t1 t2 : list Event) :
  logged (t1 ++ t2) = (logged t1 ++ logged t2)%list.
Proof. apply flat_map_app. Qed.

Lemma reads_target_reads (groups : list Nominator) :
  reads (map (fun nominator => GetCurrentTargets (bondedAddress nominator))
           groups)
  = map (fun nominator => GetCurrentTargets (bondedAddress nominator)) groups.
Proof.
  induction groups as [| g groups IH]; [reflexivity |].
  cbn. f_equal. exact IH.
Qed.

Lemma logged_target_reads (groups : list Nominator) :
  logged (map (fun nominator => GetCurrentTargets (bondedAddress nominator))
            groups)
  = [].
Proof. induction groups as [| g groups IH]; [reflexivity | exact IH]. Qed.

Lemma runsRound_cases (metadata : jobsMetadata) (w : World) :
  (runsRound metadata w = true
   /\ trace (mainScorekeeperJob metadata) w
      = ([GetActiveEraIndex; GetLastNominatedEraIndex]
           ++ roundSteps metadata w)%list)
  \/ (runsRound metadata w = false
      /\ round_calls (trace (mainScorekeeperJob metadata) w) = []
      /\ emitted (trace (mainScorekeeperJob metadata) w) = []).
Proof.
  destruct (runsRound metadata w) eqn:H.
  - left. split; [reflexivity |].
    apply runsRound_true in H as (He & Hf & Hd & Hn). now apply trace_round.
  - right. split; [reflexivity |]. now apply no_round_no_effect.
Qed.

Lemma combinedTargets_nil (w : World) (groups : list Nominator) :
  combinedTargets w groups = []
  <-> forall g, In g groups -> currentTargets w (bondedAddress g) = [].
Proof.
  unfold combinedTargets. induction groups as [| g groups IH]; cbn.
  - split; [intros _ g [] | reflexivity].
  - split.
    + intros H. apply app_eq_nil in H as [Hg Hrest].
      intros g' [<- | Hin]; [exact Hg | now apply IH].
    + intros H. rewrite (H g) by now left. cbn.
      apply IH. intros g' Hin. apply H. now right.
Qed.

(** X12. A round reads the current targets once per group, in the order
    of the groups and at each group's bonded address, after its two
    reads of the era and of the last nominated era; an invocation that
    does not get to the round reads no targets at all. *)
Theorem targets_read_once_per_group (metadata : jobsMetadata) (w : World) :
  (runsRound metadata w = true ->
   reads (trace (mainScorekeeperJob metadata) w)
   = ([GetActiveEraIndex; GetLastNominatedEraIndex]
        ++ map (fun nominator => GetCurrentTargets (bondedAddress nominator))
             (nominatorGroups metadata))%list)
  /\ (runsRound metadata w = false ->
      forall address,
        ~ In (GetCurrentTargets address)
            (trace (mainScorekeeperJob metadata) w)).
Proof.
  split.
  - intros H. apply runsRound_true in H as (He & Hf & Hd & Hn).
    rewrite (trace_round metadata w He Hf Hd Hn).
    unfold roundSteps. cbv zeta.
    rewrite !reads_app, reads_target_reads.
    destruct (length_is_zero _); cbn; now rewrite app_nil_r.
  - unfold runsRound. intros H address.
    destruct (ending metadata) eqn:He.
    { rewrite (trace_ending metadata w He). intros [Hin | []]. discriminate. }
    destruct (eraReadFails metadata) eqn:Hf.
    { rewrite (trace_era_read_fails metadata w He Hf).
      intros [Hin | [Hin | []]]; discriminate. }
    destruct (isNominationRound metadata w) eqn:Hd.
    + cbn in H. rewrite (trace_disabled metadata w He Hf Hd H).
      intros [Hin | [Hin | [Hin | []]]]; discriminate.
    + rewrite (trace_not_due metadata w He Hf Hd).
      intros [Hin | [Hin | []]]; discriminate.
Qed.

(** X13. In a round, [endRound] is called exactly when some group
    currently has at least one target. *)
Theorem end_round_iff_some_target (metadata : jobsMetadata) (w : World) :
  runsRound metadata w = true ->
  (In (endRoundOf metadata) (trace (mainScorekeeperJob metadata) w)
   <-> exists g,
         In g (nominatorGroups metadata)
         /\ currentTargets w (bondedAddress g) <> []).
Proof.
  intros H. apply runsRound_true in H as (He & Hf & Hd & Hn).
  assert (Hcalls : In (endRoundOf metadata)
                     (trace (mainScorekeeperJob metadata) w)
                   <-> In (endRoundOf metadata)
                         (round_calls (trace (mainScorekeeperJob metadata) w))).
  { unfold round_calls. rewrite filter_In. intuition. }
  rewrite Hcalls, (trace_round metadata w He Hf Hd Hn), round_calls_app.
  rewrite round_calls_roundSteps. cbn [round_calls filter is_round_call app].
  destruct (combinedTargets w (nominatorGroups metadata)) as [| t ts] eqn:Hc;
    cbn [length_is_zero].
  - split.
    + intros [Hin | []]. discriminate Hin.
    + intros [g [Hin Hne]]. exfalso. apply Hne.
      now apply (proj1 (combinedTargets_nil w (nominatorGroups metadata)) Hc).
  - split; [intros _ | intros _; now left].
    unfold combinedTargets in Hc.
    assert (Hin : In t (flat_map
                          (fun nominator =>
                             currentTargets w (bondedAddress nominator))
                          (nominatorGroups metadata)))
      by (rewrite Hc; now left).
    apply in_flat_map in Hin as [g [Hg Ht]]. exists g. split; [exact Hg |].
    intros E. now rewrite E in Ht.
Qed.

Lemma end_round_iff_some_target_witness :
  In (endRoundOf
        (sampleMetadata false (100, None) 0 true
           [mkNominator "bonded-a"; mkNominator "bonded-b"]))
    (trace
       (mainScorekeeperJob
          (sampleMetadata false (100, None) 0 true
             [mkNominator "bonded-a"; mkNominator "bonded-b"]))
       (sampleWorld 95)).
Proof.
  apply (end_round_iff_some_target
           (sampleMetadata false (100, None) 0 true
              [mkNominator "bonded-a"; mkNominator "bonded-b"])
           (sampleWorld 95) eq_refl).
  exists (mkNominator "bonded-b"). split; [right; now left | discriminate].
Defined.

(** X14. [endRound] is only ever called with [ending] false and with the
    groups of the metadata, and [startRound] only with the groups of the
    metadata and the flattened targets of all groups. *)
Theorem round_call_arguments (metadata : jobsMetadata) (w : World) :
  (forall e g c k cfg b,
     In (EndRound e g c k cfg b) (trace (mainScorekeeperJob metadata) w) ->
     e = false /\ g = nominatorGroups metadata)
  /\ (forall n era b k g c h cfg targets,
        In (StartRound n era b k g c h cfg targets)
          (trace (mainScorekeeperJob metadata) w) ->
        g = nominatorGroups metadata
        /\ targets = combinedTargets w (nominatorGroups metadata)
        /\ n = nominating metadata /\ era = currentEra metadata).
Proof.
  assert (Hfilter : forall e,
             is_round_call e = true ->
             In e (trace (mainScorekeeperJob metadata) w) ->
             In e (round_calls (trace (mainScorekeeperJob metadata) w))).
  { intros e He Hin. unfold round_calls. apply filter_In. now split. }
  destruct (runsRound_cases metadata w) as [[Hr Ht] | [Hr [Hc _]]].
  - pose proof (runsRound_true metadata w Hr) as (He & _).
    assert (Hcalls : forall e,
               In e (round_calls (trace (mainScorekeeperJob metadata) w)) ->
               e = endRoundOf metadata
               \/ e = startRoundOf metadata
                        (combinedTargets w (nominatorGroups metadata))).
    { intros e. rewrite Ht, round_calls_app, round_calls_roundSteps.
      cbn [round_calls filter is_round_call app].
      destruct (length_is_zero _); cbn; intuition. }
    split.
    + intros e g c k cfg b Hin. apply Hfilter in Hin; [| reflexivity].
      destruct (Hcalls _ Hin) as [E | E]; [| discriminate E].
      unfold endRoundOf in E. injection E as -> -> _ _ _ _. now split.
    + intros n era b k g c h cfg targets Hin.
      apply Hfilter in Hin; [| reflexivity].
      destruct (Hcalls _ Hin) as [E | E]; [discriminate E |].
      unfold startRoundOf in E. injection E as -> -> _ _ -> _ _ _ ->.
      repeat split.
  - split; intros; exfalso;
      match goal with
      | Hin : In _ _ |- _ =>
          apply Hfilter in Hin; [| reflexivity]; rewrite Hc in Hin;
          exact Hin
      end.
Qed.

(** X15. The event of a round always names group 1, whatever the number
    of groups; its progress is 100 for a single group, at most 50 for two
    or more, and 0 for more than 100 groups. *)
Theorem progress_counts_one_group (metadata : jobsMetadata) (w : World) :
  runsRound metadata w = true ->
  exists payload,
    emitted (trace (mainScorekeeperJob metadata) w) = [("jobProgress", payload)]
    /\ JobProgress.name payload = "Main Scorekeeper Job"
    /\ JobProgress.iteration payload = "Processed nominator group 1"
    /\ JobProgress.updated payload = now w
    /\ (List.length (nominatorGroups metadata) = 1%nat ->
        JobProgress.progress payload = Finite 100)
    /\ ((2 <= List.length (nominatorGroups metadata))%nat ->
        exists p, JobProgress.progress payload = Finite p /\ 0 <= p <= 50)
    /\ ((100 < List.length (nominatorGroups metadata))%nat ->
        JobProgress.progress payload = Finite 0).
Proof.
  intros H. eexists. split; [now apply round_emits_progress |].
  unfold progressOf, floor_ratio_percent. cbn [JobProgress.name
    JobProgress.iteration JobProgress.updated JobProgress.progress].
  change (1 * 100) with 100. repeat split.
  - intros ->. reflexivity.
  - intros Hn.
    destruct (Z.eqb_spec (Z.of_nat (List.length (nominatorGroups metadata))) 0);
      [lia |].
    eexists. split; [reflexivity |]. split.
    + apply Z.div_pos; lia.
    + apply Z.div_le_upper_bound; lia.
  - intros Hn.
    destruct (Z.eqb_spec (Z.of_nat (List.length (nominatorGroups metadata))) 0);
      [lia |].
    f_equal. apply Z.div_small. lia.
Qed.

Lemma progress_counts_one_group_witness :
  exists payload,
    emitted
      (trace
         (mainScorekeeperJob (sampleMetadata false (100, None) 0 true threeGroups))
         (sampleWorld 95))
    = [("jobProgress", payload)]
    /\ JobProgress.iteration payload = "Processed nominator group 1".
Proof.
  destruct (progress_counts_one_group
              (sampleMetadata false (100, None) 0 true threeGroups)
              (sampleWorld 95) eq_refl)
    as (payload & Hemit & _ & Hiter & _).
  exists payload. now split.
Defined.

(** X16. Every invocation writes at most one log line, and it writes none
    exactly when it found the round not due (not ending, era read). *)
Theorem one_log_line_at_most (metadata : jobsMetadata) (w : World) :
  (List.length (logged (trace (mainScorekeeperJob metadata) w)) <= 1)%nat
  /\ (logged (trace (mainScorekeeperJob metadata) w) = []
      <-> ending metadata = false /\ eraReadFails metadata = false
          /\ isNominationRound metadata w = false).
Proof.
  destruct (ending metadata) eqn:He.
  { rewrite (trace_ending metadata w He). cbn. split; [lia |].
    split; [discriminate | intros [H _]; discriminate H]. }
  destruct (eraReadFails metadata) eqn:Hf.
  { rewrite (trace_era_read_fails metadata w He Hf). cbn. split; [lia |].
    split; [discriminate | intros [_ [H _]]; discriminate H]. }
  destruct (isNominationRound metadata w) eqn:Hd.
  2:{ rewrite (trace_not_due metadata w He Hf Hd). cbn. split; [lia |].
      now split. }
  destruct (Config.nominating (Config.scorekeeper (config metadata))) eqn:Hn.
  - rewrite (trace_round metadata w He Hf Hd Hn). unfold roundSteps.
    cbv zeta. rewrite !logged_app, logged_target_reads.
    destruct (length_is_zero _); cbn; (split; [lia |]);
      (split; [discriminate | intros [_ [_ H]]; discriminate H]).
  - rewrite (trace_disabled metadata w He Hf Hd Hn). cbn. split; [lia |].
    split; [discriminate | intros [_ [_ H]]; discriminate H].
Qed.

(** X17. No round within the cooldown: as long as fewer than one era has
    passed since the last nomination (fewer than four on a network whose
    prefix is not 0), no invocation calls [startRound] or [endRound] or
    publishes progress, whatever its other inputs. *)
Theorem no_round_within_cooldown (metadata : jobsMetadata) (w : World) :
  activeEraOf metadata - lastNominatedEraIndex w < 1
  \/ (Config.networkPrefix (Config.global (config metadata)) <> 0
      /\ activeEraOf metadata - lastNominatedEraIndex w < 4) ->
  round_calls (trace (mainScorekeeperJob metadata) w) = []
  /\ emitted (trace (mainScorekeeperJob metadata) w) = [].
Proof.
  intros H. apply no_round_no_effect. unfold runsRound.
  assert (Hd : isNominationRound metadata w = false).
  { unfold isNominationRound, eraBuffer. apply Z.leb_gt.
    destruct (Z.eqb_spec (Config.networkPrefix
                            (Config.global (config metadata))) 0);
      destruct H as [H | [Hp H]]; lia. }
  rewrite Hd. now rewrite andb_false_r.
Qed.

Lemma no_round_within_cooldown_witness :
  round_calls
    (trace
       (mainScorekeeperJob (sampleMetadata false (100, None) 2 true threeGroups))
       (sampleWorld 97))
  = [].
Proof.
  refine (proj1
            (no_round_within_cooldown
               (sampleMetadata false (100, None) 2 true threeGroups)
               (sampleWorld 97) _)).
  right. split; [discriminate | reflexivity].
Defined.

(** * Failures of the queries and of the era read *)

Lemma converts_try_catch {A} (body : Promise A) (prefix : string)
    (sentinel : Exn -> A) :
  silent body ->
  converts
    (try_catch body
       (fun e =>
          bind (logger_error (prefix ++ exn_toString e) chaindataLabel)
            (fun _ => resolve (sentinel e))))
    body prefix sentinel.
Proof.
  unfold silent, converts, caught, logs, outcome.
  destruct body as [l [a | e]]; cbn; intros ->; split.
  - intros a' H. now injection H as <-.
  - intros e H. discriminate H.
  - intros a H. discriminate H.
  - intros e' H. now injection H as <-.
Qed.

Ltac caught_by_rejection :=
  match goal with
  | Hc : checkApiConnection _ = Returns tt,
    H : rejects _ _ _ |- _ =>
      destruct H as (a & q & Ha & Hq & Hcall);
      unfold caught, getCommission, getCommissionInEra, getBlocked,
        getBondedAmount, getControllerFromStash, getRewardDestination,
        getRewardDestinationAt, getQueuedKeys, getNextKeys, getBalance,
        getExposure, getExposureAt, chaindata_api_query,
        apiAt_optional_query, apiAt_query, api_query;
      rewrite Hc, ?Ha; cbn; rewrite ?Ha; cbn; rewrite Hq; cbn;
      rewrite Hcall; reflexivity
  end.

(** C8. No exported query throws: whatever its [try] block throws, by
    whichever call, each query catches, logs once and converts into its
    sentinel ([[0, JSON.stringify(e)]] for the number results, [false],
    [null] or the empty list for the others), and otherwise it returns
    what the block returns, silently.  In particular a connection check
    that throws and a storage call of the underlying API that rejects are
    converted so. *)
Theorem queries_convert_failures (c : ChainData) (apiAt : option Api)
    (eraIndex : Z) (s : string) :
  throwsAreConverted c apiAt eraIndex s
  /\ (forall e,
        checkApiConnection c = Throws e ->
        connectionFailureIsConverted c apiAt eraIndex s e)
  /\ (forall e,
        checkApiConnection c = Returns tt ->
        rejectedCallIsConverted c apiAt eraIndex s e).
Proof.
  split; [| split].
  - unfold throwsAreConverted. repeat split.
    all: try (apply converts_try_catch;
              unfold getCommission_try, getCommissionInEra_try,
                getBlocked_try, getBondedAmount_try,
                getControllerFromStash_try, getRewardDestination_try,
                getRewardDestinationAt_try, getQueuedKeys_try,
                getBalance_try, getExposure_try, getExposureAt_try,
                rewardDestination_account_or_string;
              silence).
    all: assert (Hs : silent (getNextKeys_try c s))
        by (unfold getNextKeys_try; silence);
      unfold getNextKeys, getNextKeys_try, silent, logs, caught in *;
      match type of Hs with
      | fst ?b = [] => destruct b as [l o]; cbn in Hs; subst l
      end;
      unfold outcome; cbn [snd].
    + intros r ->. reflexivity.
    + intros ->. reflexivity.
    + intros e ->. reflexivity.
  - intros e He. unfold connectionFailureIsConverted, caught.
    unfold getCommission, getCommissionInEra, getBlocked, getBondedAmount,
      getControllerFromStash, getRewardDestination, getRewardDestinationAt,
      getQueuedKeys, getNextKeys, getBalance, getExposure, getExposureAt.
    rewrite He. repeat split.
  - intros e Hc. unfold rejectedCallIsConverted.
    repeat split; intros; try caught_by_rejection.
    all: match goal with
         | Hd : getDenom _ = Returns _, H : rejects _ _ _ |- _ =>
             destruct H as (a & q & Ha & Hq & Hcall);
             unfold caught, getExposure, getExposureAt, chaindata_api_query,
               apiAt_query, api_query;
             rewrite Hc, Hd, ?Ha; cbn; rewrite ?Ha; cbn; rewrite Hq; cbn;
             rewrite Hcall; reflexivity
         end.
Qed.

(** The reasons of the number results of this layer: a fixed message, or
    [JSON.stringify] of the caught value. *)
Lemma number_result_reasons (c : ChainData) (s : string) :
  (forall n r,
     outcome (getCommission c s) = Returns (n, Some r) ->
     r = "No preferences found." \/ exists e, r = JSON_stringify e)
  /\ (forall n r,
        outcome (getBondedAmount c s) = Returns (n, Some r) ->
        r = "Not bonded to any account." \/ r = "Ledger is empty."
        \/ exists e, r = JSON_stringify e).
Proof.
  split; intros n r; unfold getCommission, getBondedAmount;
    query_cases; intros H; try discriminate H; injection H as <- <-;
    first [ left; reflexivity
          | right; left; reflexivity
          | right; eexists; reflexivity
          | right; right; eexists; reflexivity
          | right; exists (TypeError ""); reflexivity
          | right; right; exists (TypeError ""); reflexivity ].
Qed.

(** C6. When the era read returns an error (a non-null reason, as the
    query layer reports failures), the invocation aborts: the job logs the
    reason at warning severity and returns.  The era read is its only
    read, it calls neither [startRound] nor [endRound], it publishes no
    progress event, and so it changes no state. *)
Theorem era_read_error_aborts (metadata : jobsMetadata) (w : World)
    (reason : string) :
  ending metadata = false ->
  snd (getActiveEraIndex (chaindata metadata)) = Some reason ->
  isErrorReason reason ->
  trace (mainScorekeeperJob metadata) w
  = [GetActiveEraIndex;
     Logged (mkLog Warn ("CRITICAL: " ++ reason) scorekeeperLabel)]
  /\ reads (trace (mainScorekeeperJob metadata) w) = [GetActiveEraIndex]
  /\ round_calls (trace (mainScorekeeperJob metadata) w) = []
  /\ emitted (trace (mainScorekeeperJob metadata) w) = [].
Proof.
  intros He Hr Hne.
  assert (Hf : eraReadFails metadata = true).
  { unfold eraReadFails. rewrite Hr. cbn. unfold truthy_string.
    apply String.eqb_neq in Hne. now rewrite Hne. }
  rewrite (trace_era_read_fails metadata w He Hf), Hr. repeat split.
Qed.

Lemma era_read_error_aborts_witness :
  trace
    (mainScorekeeperJob
       (sampleMetadata false (0, Some "{}") 0 true threeGroups))
    (sampleWorld 95)
  = [GetActiveEraIndex;
     Logged (mkLog Warn "CRITICAL: {}" scorekeeperLabel)].
Proof.
  refine (proj1
            (era_read_error_aborts
               (sampleMetadata false (0, Some "{}") 0 true threeGroups)
               (sampleWorld 95) "{}" eq_refl eq_refl _)).
  discriminate.
Defined.
